(** * ramalama: the docker-compose generator (ramalama/compose.py)

    A shallow embedding of the [Compose] class of [ramalama/compose.py] and of
    the Python built-ins it calls, followed by the properties of the generated
    manifest.

    - A Python [str] is a sequence of Unicode code points: [str := list N].
      Literals of the source are written [lit "..."]; the double quote and the
      newline, which a literal cannot hold, are [dq] and [nl].
    - Code that can raise returns in [result]; the exceptions are the ones the
      Python operations of the file raise ([ValueError] on a failed tuple
      unpacking, [IndexError] on a list index out of range).
    - What the file imports from the rest of the package ([RAG_DIR],
      [version], [get_accel_env_vars]) and what it reads from the host
      ([os.path.exists]) is gathered in the record [Deps] and passed
      explicitly. *)

From Stdlib Require Import String Ascii NArith Bool Arith Lia List.
Import ListNotations.

Set Implicit Arguments.

(* ===================================================================== *)
(** * Python strings *)
(* ===================================================================== *)

Definition char := N.
Definition str := list char.

Definition lit (s : string) : str := map N_of_ascii (list_ascii_of_string s).

Definition nl : str := [10%N].
Definition dq : str := [34%N].

Definition is_empty (A : Type) (l : list A) : bool :=
  match l with [] => true | _ => false end.

(** Truth value of a sequence: a non-empty one is true. *)
Definition truthy (A : Type) (l : list A) : bool := negb (is_empty l).

(** Truth value of [getattr(args, name, None)]: [None] and the empty
    sequence are false. *)
Definition truthy_opt (A : Type) (o : option (list A)) : bool :=
  match o with Some l => truthy l | None => false end.

Fixpoint str_eqb (a b : str) : bool :=
  match a, b with
  | [], [] => true
  | x :: a', y :: b' => N.eqb x y && str_eqb a' b'
  | _, _ => false
  end.

Module Py.

(** [s.startswith(p)] *)
Fixpoint startswith (p s : str) : bool :=
  match p, s with
  | [], _ => true
  | x :: p', y :: s' => N.eqb x y && startswith p' s'
  | _ :: _, [] => false
  end.

(** [s.removeprefix(p)]: [s[len(p):]] when [s] starts with [p], else [s]. *)
Definition removeprefix (p s : str) : str :=
  if startswith p s then skipn (length p) s else s.

(** [sub in s] *)
Fixpoint contains (sub s : str) : bool :=
  startswith sub s ||
  match s with
  | [] => false
  | _ :: s' => contains sub s'
  end.

(** [s.split(sep, maxsplit)] for a separator of one character; [maxsplit]
    is [None] for the unbounded split. *)
Fixpoint split (sep : char) (maxsplit : option nat) (s : str) : list str :=
  match s with
  | [] => [[]]
  | c :: t =>
      if N.eqb c sep then
        match maxsplit with
        | Some O => [s]
        | Some (S m) => [] :: split sep (Some m) t
        | None => [] :: split sep None t
        end
      else
        match split sep maxsplit t with
        | [] => [[c]]
        | x :: xs => (c :: x) :: xs
        end
  end.

(** [sep.join(parts)] *)
Fixpoint join (sep : str) (parts : list str) : str :=
  match parts with
  | [] => []
  | [x] => x
  | x :: rest => x ++ sep ++ join sep rest
  end.

(** [s.replace(old, new)] for [old] of one character. *)
Definition replace (old : char) (new : str) (s : str) : str :=
  flat_map (fun c => if N.eqb c old then new else [c]) s.

(** The line boundaries of [str.splitlines]: \n, \v, \f, \r, \x1c, \x1d,
    \x1e, \x85, U+2028 and U+2029. *)
Definition is_linebreak (c : char) : bool :=
  existsb (N.eqb c) [10; 11; 12; 13; 28; 29; 30; 133; 8232; 8233]%N.

(** [s.splitlines()]: split at the line boundaries, \r\n counting as one;
    no empty last line when the text ends with a boundary. *)
Fixpoint splitlines (s : str) : list str :=
  match s with
  | [] => []
  | c :: t =>
      if N.eqb c 13 then
        match t with
        | d :: t' => if N.eqb d 10 then [] :: splitlines t'
                     else [] :: splitlines t
        | [] => [[]]
        end
      else if is_linebreak c then [] :: splitlines t
      else
        match splitlines t with
        | [] => [[c]]
        | x :: xs => (c :: x) :: xs
        end
  end.

(** [c.isspace()]: the Unicode white space characters. *)
Definition isspace (c : char) : bool :=
  ((9 <=? c) && (c <=? 13) || (28 <=? c) && (c <=? 32)
   || (8192 <=? c) && (c <=? 8202)
   || existsb (N.eqb c) [133; 160; 5760; 8232; 8233; 8239; 8287; 12288])%N.

Fixpoint lstrip (s : str) : str :=
  match s with
  | c :: t => if isspace c then lstrip t else s
  | [] => []
  end.

Definition rstrip (s : str) : str := rev (lstrip (rev s)).

(** [s.strip()] *)
Definition strip (s : str) : str := rstrip (lstrip s).

End Py.

(* ===================================================================== *)
(** * Exceptions *)
(* ===================================================================== *)

Inductive exn : Type :=
| ValueError
| IndexError.

Inductive result (A : Type) : Type :=
| Ok (a : A)
| Raise (e : exn).

Arguments Ok {A} a.
Arguments Raise {A} e.

Definition bind (A B : Type) (m : result A) (f : A -> result B) : result B :=
  match m with
  | Ok a => f a
  | Raise e => Raise e
  end.

Notation "x <- m ;; k" := (bind m (fun x => k))
  (at level 61, m at next level, right associativity).

(** [l[i]] *)
Definition index (A : Type) (l : list A) (i : nat) : result A :=
  match nth_error l i with
  | Some a => Ok a
  | None => Raise IndexError
  end.

(** [a, b = l] *)
Definition unpack2 (A : Type) (l : list A) : result (A * A) :=
  match l with
  | [a; b] => Ok (a, b)
  | _ => Raise ValueError
  end.

(* ===================================================================== *)
(** * shlex (Python standard library) *)
(* ===================================================================== *)

Module Shlex.

(** The characters [shlex.quote] leaves alone: [A-Za-z0-9_@%+=:,./-]. *)
Definition is_safe (c : char) : bool :=
  ((65 <=? c) && (c <=? 90) || (97 <=? c) && (c <=? 122)
   || (48 <=? c) && (c <=? 57)
   || existsb (N.eqb c) [95; 64; 37; 43; 61; 58; 44; 46; 47; 45])%N.

Definition squote : char := 39%N.

(** [shlex.quote(s)] *)
Definition quote (s : str) : str :=
  if is_empty s then [squote; squote]
  else if forallb is_safe s then s
  else [squote] ++ Py.replace squote ([squote] ++ dq ++ [squote] ++ dq ++ [squote]) s
       ++ [squote].

(** [shlex.join(split_command)] *)
Definition join (split_command : list str) : str :=
  Py.join (lit " ") (map quote split_command).

(** The lexer of [shlex.split(s)]: [shlex(s, posix=True)] with
    [whitespace_split = True] and [commenters = ''], so that
    [whitespace] is space, \t, \r, \n, [escape] is the backslash, [quotes]
    are ' and ", [escapedquotes] is ", and [punctuation_chars] is empty. *)

Inductive lstate : Type :=
| SEof                (* self.state is None *)
| SWhite              (* ' ' *)
| SWord               (* 'a' *)
| SQuote (q : char)   (* one of self.quotes *)
| SEscape (e : char). (* one of self.escape *)

Definition in_whitespace (c : char) : bool :=
  existsb (N.eqb c) [32; 9; 13; 10]%N.
Definition in_escape (c : char) : bool := N.eqb c 92.
Definition in_quotes (c : char) : bool := existsb (N.eqb c) [39; 34]%N.
Definition in_escapedquotes (c : char) : bool := N.eqb c 34.

Definition lstate_in_quotes (s : lstate) : bool :=
  match s with SQuote _ => true | _ => false end.

Definition lstate_char (s : lstate) : option char :=
  match s with SQuote c | SEscape c => Some c | _ => None end.

Definition char_is (o : option char) (c : char) : bool :=
  match o with Some d => N.eqb c d | None => false end.

(** What [read_token] leaves: the token it returns ([None] is [self.eof]),
    [self.state] and the unread input. *)
Record token_out : Type := {
  tok_result : option str;
  tok_state : lstate;
  tok_rest : str
}.

(** The end of [read_token], after the loop: in POSIX mode an empty token
    that saw no quote is [None]. *)
Definition finish (token : str) (quoted : bool) (state : lstate) (rest : str)
  : result token_out :=
  Ok {| tok_result := if negb quoted && is_empty token then None else Some token;
        tok_state := state;
        tok_rest := rest |}.

(** The [while True] loop of [read_token]; [instream] is the unread input,
    the other arguments are [self.state], [escapedstate], [self.token] and
    [quoted]. *)
Fixpoint read_loop (instream : str) (state escapedstate : lstate)
         (token : str) (quoted : bool) : result token_out :=
  match instream with
  | [] =>
      (* nextchar = '' *)
      match state with
      | SEof => finish [] quoted SEof []
      | SWhite => finish token quoted SEof []
      | SQuote _ => Raise ValueError   (* No closing quotation *)
      | SEscape _ => Raise ValueError  (* No escaped character *)
      | SWord => finish token quoted SEof []
      end
  | nextchar :: rest =>
      match state with
      | SEof => finish [] quoted SEof rest
      | SWhite =>
          if in_whitespace nextchar then
            if truthy token || quoted then finish token quoted SWhite rest
            else read_loop rest SWhite escapedstate token quoted
          else if in_escape nextchar then
            read_loop rest (SEscape nextchar) SWord token quoted
          else if in_quotes nextchar then
            read_loop rest (SQuote nextchar) escapedstate token quoted
          else
            (* in wordchars, or whitespace_split *)
            read_loop rest SWord escapedstate [nextchar] quoted
      | SQuote q =>
          (* quoted = True *)
          if N.eqb nextchar q then
            read_loop rest SWord escapedstate token true
          else if in_escape nextchar && in_escapedquotes q then
            read_loop rest (SEscape nextchar) state token true
          else
            read_loop rest state escapedstate (token ++ [nextchar]) true
      | SEscape e =>
          let token' :=
            if lstate_in_quotes escapedstate && negb (N.eqb nextchar e)
               && negb (char_is (lstate_char escapedstate) nextchar)
            then token ++ [e] else token in
          read_loop rest escapedstate escapedstate (token' ++ [nextchar]) quoted
      | SWord =>
          if in_whitespace nextchar then
            (* self.state = ' '; the token is never empty here unless quoted *)
            if truthy token || quoted then finish token quoted SWhite rest
            else read_loop rest SWhite escapedstate token quoted
          else if in_quotes nextchar then
            read_loop rest (SQuote nextchar) escapedstate token quoted
          else if in_escape nextchar then
            read_loop rest (SEscape nextchar) SWord token quoted
          else
            read_loop rest SWord escapedstate (token ++ [nextchar]) quoted
      end
  end.

(** [read_token]: the loop started with an empty token, [quoted = False]
    and [escapedstate = ' ']. *)
Definition read_token (state : lstate) (instream : str) : result token_out :=
  read_loop instream state SWhite [] false.

(** [list(lex)]: [get_token] until it returns [self.eof]. Every call but
    the last consumes input, so [length s + 2] calls are enough for an
    input [s]; a run that needed more would stop with what it has. *)
Fixpoint tokens (fuel : nat) (state : lstate) (instream : str)
  : result (list str) :=
  match fuel with
  | O => Ok []
  | S fuel' =>
      out <- read_token state instream ;;
      match tok_result out with
      | None => Ok []
      | Some t =>
          ts <- tokens fuel' (tok_state out) (tok_rest out) ;;
          Ok (t :: ts)
      end
  end.

(** [shlex.split(s)] *)
Definition split (s : str) : result (list str) :=
  tokens (length s + 2) SWhite s.

End Shlex.

(* ===================================================================== *)
(** * The Compose class *)
(* ===================================================================== *)

(** The attributes of [args] the class reads. [getattr(args, x, None)] is
    [None] when the attribute is missing or set to [None]. [image] is read
    as [args.image], without a default. *)
Record Args : Type := {
  args_name : option str;
  args_image : str;
  args_rag : option str;
  args_port : option str;
  args_env : option (list str)
}.

(** What [compose.py] takes from outside the file: the constant [RAG_DIR]
    and the functions [version] and [get_accel_env_vars] of the package, and
    the host's [os.path.exists]. A dict is the list of its items in
    iteration order. *)
Record Deps : Type := {
  RAG_DIR : str;
  version : str;
  get_accel_env_vars : list (str * str);
  path_exists : str -> bool
}.

(** The fields [__init__] sets. *)
Record Compose : Type := {
  src_model_path : str;
  dest_model_path : str;
  src_chat_template_path : str;
  dest_chat_template_path : str;
  src_mmproj_path : str;
  dest_mmproj_path : str;
  model_name : str;
  name : str;
  args : Args;
  exec_args : list str;
  image : str
}.

(** [ramalama.file.PlainFile]: a file name and its content. *)
Record PlainFile : Type := {
  filename : str;
  content : str
}.

(** [Compose.__init__] *)
Definition __init__ (model_name : str) (model_paths : str * str)
           (chat_template_paths mmproj_paths : option (str * str))
           (args : Args) (exec_args : list str) : Compose :=
  let '(src_model, dest_model) := model_paths in
  let '(src_chat, dest_chat) :=
    match chat_template_paths with Some p => p | None => ([], []) end in
  let '(src_mmproj, dest_mmproj) :=
    match mmproj_paths with Some p => p | None => ([], []) end in
  {| src_model_path := Py.removeprefix (lit "oci://") src_model;
     dest_model_path := dest_model;
     src_chat_template_path := src_chat;
     dest_chat_template_path := dest_chat;
     src_mmproj_path := src_mmproj;
     dest_mmproj_path := dest_mmproj;
     model_name := model_name;
     name := if truthy_opt (args_name args)
             then match args_name args with Some n => n | None => [] end
             else lit "ramalama-" ++ model_name;
     args := args;
     exec_args := exec_args;
     image := args_image args |}.

(** A dict assignment [d[key] = val]: an existing key keeps its place, a new
    one goes last. *)
Fixpoint dict_set (d : list (str * str)) (key val : str) : list (str * str) :=
  match d with
  | [] => [(key, val)]
  | (k, v) :: d' =>
      if str_eqb k key then (k, val) :: d' else (k, v) :: dict_set d' key val
  end.

Section Generator.

Variable deps : Deps.
Variable self : Compose.

(** The short form of a mount, [\n      - "src:dest:ro"]. *)
Definition bind_mount (src dest : str) : str :=
  nl ++ lit "      - " ++ dq ++ src ++ lit ":" ++ dest ++ lit ":ro" ++ dq.

Definition _gen_model_volume : str :=
  bind_mount (src_model_path self) (dest_model_path self).

Definition _gen_rag_volume : str :=
  let rag_source := match args_rag (args self) with Some r => r | None => [] end in
  if Py.startswith (lit "oci:") rag_source then
    let oci_image := Py.removeprefix (lit "oci:") rag_source in
    nl ++ lit "      - type: image" ++
    nl ++ lit "        source: " ++ oci_image ++
    nl ++ lit "        target: " ++ RAG_DIR deps ++
    nl ++ lit "        image:" ++
    nl ++ lit "          readonly: true"
  else if path_exists deps rag_source then
    bind_mount rag_source (RAG_DIR deps)
  else [].

Definition _gen_chat_template_volume : str :=
  bind_mount (src_chat_template_path self) (dest_chat_template_path self).

Definition _gen_mmproj_volume : str :=
  bind_mount (src_mmproj_path self) (dest_mmproj_path self).

Definition _gen_volumes : str :=
  let volumes := lit "    volumes:" in
  let volumes := volumes ++ _gen_model_volume in
  let volumes :=
    if truthy_opt (args_rag (args self)) then volumes ++ _gen_rag_volume
    else volumes in
  let volumes :=
    if truthy (src_chat_template_path self)
       && path_exists deps (src_chat_template_path self)
    then volumes ++ _gen_chat_template_volume else volumes in
  let volumes :=
    if truthy (src_mmproj_path self)
       && path_exists deps (src_mmproj_path self)
    then volumes ++ _gen_mmproj_volume else volumes in
  volumes.

Definition _gen_devices : str :=
  let device_list :=
    filter (path_exists deps) [lit "/dev/dri"; lit "/dev/kfd"; lit "/dev/accel"] in
  if is_empty device_list then []
  else
    fold_left
      (fun devices_str dev =>
         devices_str ++ nl ++ lit "      - " ++ dq ++ dev ++ lit ":" ++ dev ++ dq)
      device_list (lit "    devices:").

(** The ports block for a host and a container port. *)
Definition ports_block (host_port container_port : str) : str :=
  lit "    ports:" ++ nl ++ lit "      - " ++ dq
  ++ host_port ++ lit ":" ++ container_port ++ dq.

Definition _gen_ports : result str :=
  if negb (truthy_opt (args_port (args self))) then
    Ok (lit "    ports:" ++ nl ++ lit "      - " ++ dq ++ lit "8080:8080" ++ dq)
  else
    let port_arg := match args_port (args self) with Some p => p | None => [] end in
    let p := Py.split 58%N (Some 2) port_arg in
    host_port <- (if 1 <? length p then index p 1 else index p 0) ;;
    container_port <- index p 0 ;;
    Ok (ports_block host_port container_port).

(** The loop over [self.args.env]. *)
Fixpoint apply_env (env_vars : list (str * str)) (env : list str)
  : result (list (str * str)) :=
  match env with
  | [] => Ok env_vars
  | e :: env' =>
      kv <- unpack2 (Py.split 61%N (Some 1) e) ;;
      apply_env (dict_set env_vars (fst kv) (snd kv)) env'
  end.

Definition _gen_environment : result str :=
  let env_vars := get_accel_env_vars deps in
  env_vars <-
    (if truthy_opt (args_env (args self))
     then apply_env env_vars
                    (match args_env (args self) with Some l => l | None => [] end)
     else Ok env_vars) ;;
  if is_empty env_vars then Ok []
  else
    Ok (fold_left
          (fun env_spec kv =>
             env_spec ++ nl ++ lit "      - " ++ fst kv ++ lit "=" ++ snd kv)
          env_vars (lit "    environment:")).

Definition gpu_stanza : str :=
  lit "    deploy:" ++
  nl ++ lit "      resources:" ++
  nl ++ lit "        reservations:" ++
  nl ++ lit "          devices:" ++
  nl ++ lit "            - driver: nvidia" ++
  nl ++ lit "              count: all" ++
  nl ++ lit "              capabilities: [gpu]".

Definition _gen_gpu_deployment : str :=
  if negb (Py.contains (lit "cuda") (image self)) then [] else gpu_stanza.

Definition _gen_command : str :=
  if negb (truthy (exec_args self)) then []
  else
    let cmd := Shlex.join (exec_args self) in
    lit "    command: " ++ cmd.

(** [genfile]: the file and the line it prints. *)
Definition genfile (name content : str) : list str * PlainFile :=
  let file_name := lit "docker-compose.yaml" in
  ([lit "Generating Docker Compose file: " ++ file_name],
   {| filename := file_name; content := content |}).

(** The f-string of [generate], before the clean-up. *)
Definition template (volumes_string ports_string environment_string
                     devices_string gpu_deploy_string command_string : str) : str :=
  lit "# Save this output to a 'docker-compose.yaml' file and run 'docker compose up'." ++ nl ++
  lit "#" ++ nl ++
  lit "# Created with ramalama-" ++ version deps ++ nl ++
  nl ++
  lit "services:" ++ nl ++
  lit "  " ++ model_name self ++ lit ":" ++ nl ++
  lit "    container_name: " ++ name self ++ nl ++
  lit "    image: " ++ image self ++ nl ++
  volumes_string ++ nl ++
  ports_string ++ nl ++
  environment_string ++ nl ++
  devices_string ++ nl ++
  gpu_deploy_string ++ nl ++
  command_string ++ nl ++
  lit "    restart: unless-stopped" ++ nl.

(** ["\n".join(line for line in content.splitlines() if line.strip())] *)
Definition cleanup (content : str) : str :=
  Py.join nl (filter (fun line => truthy (Py.strip line)) (Py.splitlines content)).

Definition generate : result (list str * PlainFile) :=
  let volumes_string := _gen_volumes in
  ports_string <- _gen_ports ;;
  environment_string <- _gen_environment ;;
  let devices_string := _gen_devices in
  let gpu_deploy_string := _gen_gpu_deployment in
  let command_string := _gen_command in
  let content :=
    template volumes_string ports_string environment_string
             devices_string gpu_deploy_string command_string in
  let content := cleanup content in
  Ok (genfile (name self) content).

End Generator.

(* ===================================================================== *)
(** * Notions used in the statements *)
(* ===================================================================== *)

Definition colon : char := 58%N.
Definition equals : char := 61%N.

(** A volume entry that is mounted read-only: a short-form bind mount ending
    in [:ro], or the long-form image volume with [readonly: true]. *)
Inductive read_only_mount : str -> Prop :=
| ro_bind (src dest : str) :
    read_only_mount
      (nl ++ lit "      - " ++ dq ++ src ++ lit ":" ++ dest ++ lit ":ro" ++ dq)
| ro_image (source target : str) :
    read_only_mount
      (nl ++ lit "      - type: image" ++
       nl ++ lit "        source: " ++ source ++
       nl ++ lit "        target: " ++ target ++
       nl ++ lit "        image:" ++
       nl ++ lit "          readonly: true").

(** The long-form image-volume stanza for a source and a target. *)
Definition image_volume (source target : str) : str :=
  nl ++ lit "      - type: image" ++
  nl ++ lit "        source: " ++ source ++
  nl ++ lit "        target: " ++ target ++
  nl ++ lit "        image:" ++
  nl ++ lit "          readonly: true".

(** A mount that is emitted when its host path is set and exists. *)
Definition optional_mount (deps : Deps) (src dest : str) : str :=
  if truthy src && path_exists deps src then bind_mount src dest else [].

(** The corpus part of the volumes section: [_gen_rag_volume] is called
    when [args.rag] is set and not empty. *)
Definition corpus_mount (deps : Deps) (c : Compose) : str :=
  if truthy_opt (args_rag (args c)) then _gen_rag_volume deps c else [].

(** The volume entries as data: a bind mount of a host path, or an image
    volume; [render_mount] writes an entry the way the class does, and
    [emitted_mounts] lists the entries of a configuration in the order of
    [_gen_volumes]: model, corpus, chat template, projector. *)
Inductive mount : Type :=
| Bind (src dest : str)
| ImageVolume (source target : str).

Definition render_mount (m : mount) : str :=
  match m with
  | Bind src dest => bind_mount src dest
  | ImageVolume source target => image_volume source target
  end.

Definition corpus_mounts (deps : Deps) (c : Compose) : list mount :=
  match args_rag (args c) with
  | Some (ch :: r) =>
      if Py.startswith (lit "oci:") (ch :: r)
      then [ImageVolume (Py.removeprefix (lit "oci:") (ch :: r)) (RAG_DIR deps)]
      else if path_exists deps (ch :: r) then [Bind (ch :: r) (RAG_DIR deps)]
      else []
  | _ => []
  end.

Definition optional_mounts (deps : Deps) (src dest : str) : list mount :=
  if truthy src && path_exists deps src then [Bind src dest] else [].

Definition emitted_mounts (deps : Deps) (c : Compose) : list mount :=
  [Bind (src_model_path c) (dest_model_path c)]
  ++ corpus_mounts deps c
  ++ optional_mounts deps (src_chat_template_path c) (dest_chat_template_path c)
  ++ optional_mounts deps (src_mmproj_path c) (dest_mmproj_path c).

(** A URI-scheme prefix, in the words of the specification: a scheme (a
    letter, then letters, digits, [+], [-] or [.]) followed by [://]. *)
Definition is_alpha (c : char) : bool :=
  ((65 <=? c) && (c <=? 90) || (97 <=? c) && (c <=? 122))%N.

Definition is_scheme_char (c : char) : bool :=
  (is_alpha c || (48 <=? c) && (c <=? 57)
   || existsb (N.eqb c) [43; 45; 46])%N.

Fixpoint scheme_then_slashes (s : str) : bool :=
  match s with
  | [] => false
  | c :: t =>
      is_scheme_char c && (Py.startswith (lit "://") t || scheme_then_slashes t)
  end.

Definition has_uri_scheme_prefix (s : str) : bool :=
  match s with
  | [] => false
  | c :: _ => is_alpha c && scheme_then_slashes s
  end.

(** The entries of the environment block for the items of a dict. *)
Definition env_entries (env_vars : list (str * str)) : str :=
  concat (map (fun kv => nl ++ lit "      - " ++ fst kv ++ lit "=" ++ snd kv) env_vars).

Definition env_block (env_vars : list (str * str)) : str :=
  if is_empty env_vars then [] else lit "    environment:" ++ env_entries env_vars.

(** [d.get(key)] on the items of a dict. *)
Fixpoint dict_get (d : list (str * str)) (key : str) : option str :=
  match d with
  | [] => None
  | (k, v) :: d' => if str_eqb k key then Some v else dict_get d' key
  end.

(** The keys of a sequence that are not in [seen], each at its first
    occurrence. *)
Fixpoint new_keys (seen keys : list str) : list str :=
  match keys with
  | [] => []
  | k :: keys' =>
      if existsb (str_eqb k) seen then new_keys seen keys'
      else k :: new_keys (seen ++ [k]) keys'
  end.

(** The value the last override for [key] gives, if there is one. *)
Fixpoint last_override (kvs : list (str * str)) (key : str) : option str :=
  match kvs with
  | [] => None
  | (k, v) :: kvs' =>
      match last_override kvs' key with
      | Some v' => Some v'
      | None => if str_eqb k key then Some v else None
      end
  end.

(** An override string [KEY=VALUE]. *)
Definition override (kv : str * str) : str := fst kv ++ lit "=" ++ snd kv.

(** The dict after the overrides [kvs], given as pairs. *)
Definition apply_pairs (d : list (str * str)) (kvs : list (str * str))
  : list (str * str) :=
  fold_left (fun d kv => dict_set d (fst kv) (snd kv)) kvs d.

(** An override string without [=]. *)
Definition malformed (e : str) : Prop := ~ In equals e.

(** A line that is empty or holds white space only. *)
Definition blank (line : str) : bool := forallb Py.isspace line.

(** A line that holds no line boundary. *)
Definition one_line (line : str) : bool :=
  forallb (fun c => negb (Py.is_linebreak c)) line.

(** The lines the clean-up keeps. *)
Definition kept_lines (content : str) : list str :=
  filter (fun line => truthy (Py.strip line)) (Py.splitlines content).

(** The first line of the manifest. *)
Definition banner : str :=
  lit "# Save this output to a 'docker-compose.yaml' file and run 'docker compose up'.".

(** What [genfile] prints. *)
Definition progress_line : str :=
  lit "Generating Docker Compose file: docker-compose.yaml".

(** The lines of the reservation stanza. *)
Definition gpu_lines : list str :=
  [lit "    deploy:";
   lit "      resources:";
   lit "        reservations:";
   lit "          devices:";
   lit "            - driver: nvidia";
   lit "              count: all";
   lit "              capabilities: [gpu]"].

(** The lines of the manifest that come before the deploy section, for the
    given port and environment sections, and the ones that come after it. *)
Definition lines_before_deploy (deps : Deps) (c : Compose) (ports env : str)
  : list str :=
  [banner; lit "#"]
  ++ kept_lines (lit "# Created with ramalama-" ++ version deps)
  ++ [lit "services:"]
  ++ kept_lines (lit "  " ++ model_name c ++ lit ":")
  ++ kept_lines (lit "    container_name: " ++ name c)
  ++ kept_lines (lit "    image: " ++ image c)
  ++ kept_lines (_gen_volumes deps c)
  ++ kept_lines ports
  ++ kept_lines env
  ++ kept_lines (_gen_devices deps).

Definition lines_after_deploy (c : Compose) : list str :=
  kept_lines (_gen_command c) ++ [lit "    restart: unless-stopped"].

(** A single quote inside single quotes, as [shlex.quote] writes it. *)
Definition quoted_squote : str :=
  [Shlex.squote] ++ dq ++ [Shlex.squote] ++ dq ++ [Shlex.squote].

(** A configuration with the model only: no chat template, no projector,
    no launch command. *)
Definition minimal (mn src dest : str) (a : Args) : Compose :=
  __init__ mn (src, dest) None None a [].

(* ===================================================================== *)
(** * Sample inputs *)
(* ===================================================================== *)

Definition no_args (image : str) : Args :=
  {| args_name := None; args_image := image; args_rag := None;
     args_port := None; args_env := None |}.

Definition bare_host : Deps :=
  {| RAG_DIR := lit "/rag"; version := lit "0.12.0";
     get_accel_env_vars := []; path_exists := fun _ => false |}.

Definition everything_exists : Deps :=
  {| RAG_DIR := lit "/rag"; version := lit "0.12.0";
     get_accel_env_vars := [(lit "HIP_VISIBLE_DEVICES", lit "0")];
     path_exists := fun _ => true |}.

Definition two_accel_vars : Deps :=
  {| RAG_DIR := lit "/rag"; version := lit "0.12.0";
     get_accel_env_vars :=
       [(lit "HIP_VISIBLE_DEVICES", lit "0"); (lit "CUDA_VISIBLE_DEVICES", lit "1")];
     path_exists := fun _ => false |}.

Definition with_port (a : Args) (p : option str) : Args :=
  {| args_name := args_name a; args_image := args_image a;
     args_rag := args_rag a; args_port := p; args_env := args_env a |}.

Definition set_args (c : Compose) (a : Args) : Compose :=
  {| src_model_path := src_model_path c;
     dest_model_path := dest_model_path c;
     src_chat_template_path := src_chat_template_path c;
     dest_chat_template_path := dest_chat_template_path c;
     src_mmproj_path := src_mmproj_path c;
     dest_mmproj_path := dest_mmproj_path c;
     model_name := model_name c;
     name := name c;
     args := a;
     exec_args := exec_args c;
     image := image c |}.

Definition tiny : Compose :=
  __init__ (lit "tiny") (lit "/models/tiny.gguf", lit "/mnt/models/model.file")
       None None (no_args (lit "quay.io/ramalama/ramalama:latest")) [].

Definition tiny_with_port (p : str) : Compose :=
  set_args tiny (with_port (args tiny) (Some p)).

Definition file_uri_model : Compose :=
  __init__ (lit "tiny") (lit "file:///models/tiny.gguf", lit "/mnt/models/model.file")
       None None (no_args (lit "quay.io/ramalama/ramalama:latest")) [].

Definition oci_model : Compose :=
  __init__ (lit "tiny") (lit "oci://quay.io/org/tiny:latest", lit "/mnt/models/model.file")
       None None (no_args (lit "quay.io/ramalama/ramalama:latest")) [].

Definition with_image (img : str) : Compose :=
  __init__ (lit "tiny") (lit "/models/tiny.gguf", lit "/mnt/models/model.file")
       None None (no_args img) [].

Definition with_rag (r : str) : Compose :=
  __init__ (lit "tiny") (lit "/models/tiny.gguf", lit "/mnt/models/model.file")
       None None
       {| args_name := None; args_image := lit "quay.io/ramalama/ramalama:latest";
          args_rag := Some r; args_port := None; args_env := None |} [].

Definition with_env (env : list str) : Compose :=
  __init__ (lit "tiny") (lit "/models/tiny.gguf", lit "/mnt/models/model.file")
       None None
       {| args_name := None; args_image := lit "quay.io/ramalama/ramalama:latest";
          args_rag := None; args_port := None; args_env := Some env |} [].

(** A configuration with a launch command. *)
Definition with_command (cmd : list str) : Compose :=
  __init__ (lit "tiny") (lit "/models/tiny.gguf", lit "/mnt/models/model.file")
       None None (no_args (lit "quay.io/ramalama/ramalama:latest")) cmd.

(** A configuration with every input set. *)
Definition full_sample : Compose :=
  __init__ (lit "tiny") (lit "oci://quay.io/org/tiny:latest", lit "/mnt/models/model.file")
       (Some (lit "/models/chat.jinja", lit "/mnt/models/chat_template.file"))
       (Some (lit "/models/mmproj.gguf", lit "/mnt/models/mmproj.file"))
       {| args_name := Some (lit "svc");
          args_image := lit "quay.io/ramalama/cuda:latest";
          args_rag := Some (lit "oci:quay.io/org/corpus:v1");
          args_port := Some (lit "9090");
          args_env := Some [lit "A=b c"; lit "HIP_VISIBLE_DEVICES="] |}
       [lit "llama-server"; lit "--alias"; lit "it's tiny"; []].

(* ===================================================================== *)
(** * Notions used in the further properties *)
(* ===================================================================== *)

(** The device paths [_gen_devices] probes, in its order. *)
Definition device_paths : list str :=
  [lit "/dev/dri"; lit "/dev/kfd"; lit "/dev/accel"].

(** The line of a device entry: the path mapped to itself. *)
Definition device_line (dev : str) : str :=
  lit "      - " ++ dq ++ dev ++ lit ":" ++ dev ++ dq.

(** An optional argument with the empty value taken as absent. *)
Definition absent_if_empty (A : Type) (o : option (list A)) : option (list A) :=
  match o with
  | Some [] => None
  | _ => o
  end.

Definition with_rag_env (a : Args) (rag : option str) (env : option (list str))
  : Args :=
  {| args_name := args_name a; args_image := args_image a;
     args_rag := rag; args_port := args_port a; args_env := env |}.

(** The last line of every manifest. *)
Definition restart_line : str := lit "    restart: unless-stopped".

(** A host on which only the render node and the accelerator path exist. *)
Definition dri_and_accel : Deps :=
  {| RAG_DIR := lit "/rag"; version := lit "0.12.0";
     get_accel_env_vars := [];
     path_exists := fun p => str_eqb p (lit "/dev/dri") || str_eqb p (lit "/dev/accel") |}.

(** A configuration with an empty corpus source and an empty override
    list. *)
Definition empty_rag_env : Compose :=
  __init__ (lit "tiny") (lit "/models/tiny.gguf", lit "/mnt/models/model.file")
       None None
       {| args_name := None; args_image := lit "quay.io/ramalama/ramalama:latest";
          args_rag := Some []; args_port := None; args_env := Some [] |} [].

(** The dict of [_gen_environment] before it is written out: the
    accelerator variables with the overrides of [args.env] applied. *)
Definition merged_env (deps : Deps) (c : Compose) : result (list (str * str)) :=
  if truthy_opt (args_env (args c))
  then apply_env (get_accel_env_vars deps)
                 (match args_env (args c) with Some l => l | None => [] end)
  else Ok (get_accel_env_vars deps).

(** The line of one item in the environment section. *)
Definition env_line (kv : str * str) : str :=
  lit "      - " ++ fst kv ++ lit "=" ++ snd kv.

(** The lines of the default port section. *)
Definition default_port_lines : list str :=
  [lit "    ports:"; lit "      - " ++ dq ++ lit "8080:8080" ++ dq].




(** A configuration with the port set to the empty string and overrides. *)
Definition empty_port_with_env (env : list str) : Compose :=
  __init__ (lit "tiny") (lit "/models/tiny.gguf", lit "/mnt/models/model.file")
       None None
       {| args_name := None; args_image := lit "quay.io/ramalama/ramalama:latest";
          args_rag := None; args_port := Some []; args_env := Some env |} [].

(* ===================================================================== *)
(** * Lemmas on the Python built-ins *)
(* ===================================================================== *)

Lemma str_eqb_refl (a : str) : str_eqb a a = true.
Proof. induction a as [|x a IH]; simpl; [reflexivity|]. now rewrite N.eqb_refl. Qed.

Lemma str_eqb_eq (a b : str) : str_eqb a b = true <-> a = b.
Proof.
  split.
  - revert b. induction a as [|x a IH]; intros [|y b]; simpl; try discriminate; auto.
    intros H. apply andb_true_iff in H as [Hx Hr].
    apply N.eqb_eq in Hx. f_equal; auto.
  - intros ->. apply str_eqb_refl.
Qed.

Lemma str_eqb_neq (a b : str) : str_eqb a b = false <-> a <> b.
Proof.
  rewrite <- str_eqb_eq. destruct (str_eqb a b); split; congruence.
Qed.

Lemma startswith_app (p r : str) : Py.startswith p (p ++ r) = true.
Proof. induction p as [|x p IH]; simpl; [reflexivity|]. now rewrite N.eqb_refl. Qed.

Lemma startswith_inv (p s : str) :
  Py.startswith p s = true -> exists r, s = p ++ r.
Proof.
  revert s. induction p as [|x p IH]; intros s H.
  - now exists s.
  - destruct s as [|y s]; simpl in H; [discriminate|].
    apply andb_true_iff in H as [Hx Hr]. apply N.eqb_eq in Hx. subst y.
    destruct (IH _ Hr) as [r ->]. now exists r.
Qed.

Lemma skipn_length_app (A : Type) (p r : list A) : skipn (length p) (p ++ r) = r.
Proof. induction p; simpl; auto. Qed.

Lemma removeprefix_app (p r : str) : Py.removeprefix p (p ++ r) = r.
Proof.
  unfold Py.removeprefix. rewrite startswith_app. apply skipn_length_app.
Qed.

Lemma removeprefix_other (p s : str) :
  Py.startswith p s = false -> Py.removeprefix p s = s.
Proof. unfold Py.removeprefix. now intros ->. Qed.

Lemma contains_spec (sub s : str) :
  Py.contains sub s = true <-> exists pre post, s = pre ++ sub ++ post.
Proof.
  split.
  - induction s as [|c s IH]; simpl; intros H.
    + apply orb_true_iff in H as [H|H]; [|discriminate].
      apply startswith_inv in H as [r ->]. now exists [], r.
    + apply orb_true_iff in H as [H|H].
      * apply startswith_inv in H as [r ->]. now exists [], r.
      * destruct (IH H) as (pre & post & ->). now exists (c :: pre), post.
  - intros (pre & post & ->). induction pre as [|c pre IH].
    + pose proof (startswith_app sub post) as H. simpl.
      destruct (sub ++ post); simpl; now rewrite H.
    + simpl app. simpl. rewrite IH. apply orb_true_r.
Qed.

Lemma split_zero (sep : char) (s : str) : Py.split sep (Some 0) s = [s].
Proof.
  induction s as [|c s IH]; simpl; [reflexivity|].
  destruct (N.eqb c sep); [reflexivity|]. now rewrite IH.
Qed.

Lemma split_no_sep (sep : char) (m : option nat) (s : str) :
  ~ In sep s -> Py.split sep m s = [s].
Proof.
  induction s as [|c s IH]; simpl; intros H; [reflexivity|].
  destruct (N.eqb_spec c sep) as [->|Hne]; [exfalso; auto|].
  rewrite IH; auto.
Qed.

Lemma split_at_sep (sep : char) (m : nat) (a b : str) :
  ~ In sep a ->
  Py.split sep (Some (S m)) (a ++ sep :: b) = a :: Py.split sep (Some m) b.
Proof.
  induction a as [|c a IH]; simpl; intros H.
  - now rewrite N.eqb_refl.
  - destruct (N.eqb_spec c sep) as [->|Hne]; [exfalso; auto|].
    rewrite IH; auto.
Qed.

(* ===================================================================== *)
(** * The port section *)
(* ===================================================================== *)

Ltac no_char := cbv; intuition discriminate.

Lemma gen_ports_falsy (c : Compose) :
  truthy_opt (args_port (args c)) = false ->
  _gen_ports c = Ok (ports_block (lit "8080") (lit "8080")).
Proof. unfold _gen_ports. now intros ->. Qed.

Lemma gen_ports_split (c : Compose) (p : str) :
  args_port (args c) = Some p -> p <> [] ->
  _gen_ports c =
    (let parts := Py.split colon (Some 2) p in
     host_port <- (if 1 <? length parts then index parts 1 else index parts 0) ;;
     container_port <- index parts 0 ;;
     Ok (ports_block host_port container_port)).
Proof.
  intros Hp Hne. unfold _gen_ports. rewrite Hp.
  destruct p; [congruence|reflexivity].
Qed.

(** [_gen_ports] raises for no port argument. *)
Lemma gen_ports_total (c : Compose) : exists s, _gen_ports c = Ok s.
Proof.
  unfold _gen_ports.
  destruct (truthy_opt (args_port (args c))); simpl; [|eauto].
  set (p := match args_port (args c) with Some p => p | None => [] end).
  assert (H : exists x xs, Py.split 58%N (Some 2) p = x :: xs).
  { generalize (Some 2). intros m. revert m.
    induction p as [|ch p IH]; intros m; simpl; [eauto|].
    destruct (N.eqb ch 58); [destruct m as [[|m]|]; eauto|].
    destruct (IH m) as (x & xs & ->). eauto. }
  destruct H as (x & xs & ->). destruct xs as [|y ys]; simpl; eauto.
Qed.

(** C1, as the code has it: with no port (or an empty one) the port section
    is the mapping 8080:8080; a port without a colon, N, gives N:N; a port
    [A:B] is split at its colons, at most twice, and the FIRST part is the
    container port, the SECOND the host port: the entry is [B:A], and what
    follows a second colon is dropped. *)
Theorem gen_ports_mapping (c : Compose) :
  (truthy_opt (args_port (args c)) = false ->
   _gen_ports c = Ok (ports_block (lit "8080") (lit "8080")))
  /\ (forall n, args_port (args c) = Some n -> n <> [] -> ~ In colon n ->
      _gen_ports c = Ok (ports_block n n))
  /\ (forall a b, args_port (args c) = Some (a ++ lit ":" ++ b) ->
      ~ In colon a -> ~ In colon b ->
      _gen_ports c = Ok (ports_block b a))
  /\ (forall a b r, args_port (args c) = Some (a ++ lit ":" ++ b ++ lit ":" ++ r) ->
      ~ In colon a -> ~ In colon b ->
      _gen_ports c = Ok (ports_block b a)).
Proof.
  split; [apply gen_ports_falsy|]. split; [|split].
  - intros n Hp Hne Hn. rewrite (gen_ports_split c Hp Hne). simpl.
    now rewrite split_no_sep by assumption.
  - intros a b Hp Ha Hb.
    rewrite (gen_ports_split c Hp) by (destruct a; discriminate). simpl.
    change (a ++ lit ":" ++ b) with (a ++ colon :: b).
    rewrite split_at_sep by assumption. rewrite split_no_sep by assumption. reflexivity.
  - intros a b r Hp Ha Hb.
    rewrite (gen_ports_split c Hp) by (destruct a; discriminate). simpl.
    change (a ++ lit ":" ++ b ++ lit ":" ++ r) with (a ++ colon :: b ++ colon :: r).
    rewrite split_at_sep by assumption. rewrite split_at_sep by assumption.
    rewrite split_zero. reflexivity.
Qed.

Lemma gen_ports_mapping_witness :
  _gen_ports tiny = Ok (ports_block (lit "8080") (lit "8080"))
  /\ _gen_ports (tiny_with_port (lit "9090")) = Ok (ports_block (lit "9090") (lit "9090"))
  /\ _gen_ports (tiny_with_port (lit "9090:8080")) = Ok (ports_block (lit "8080") (lit "9090"))
  /\ _gen_ports (tiny_with_port (lit "9090:8080:tcp")) = Ok (ports_block (lit "8080") (lit "9090")).
Proof.
  split; [|split; [|split]].
  - apply (proj1 (gen_ports_mapping tiny)). reflexivity.
  - apply (proj1 (proj2 (gen_ports_mapping (tiny_with_port (lit "9090"))))).
    + reflexivity.
    + discriminate.
    + no_char.
  - apply (proj1 (proj2 (proj2 (gen_ports_mapping (tiny_with_port (lit "9090:8080")))))
             (lit "9090") (lit "8080")).
    + reflexivity.
    + no_char.
    + no_char.
  - apply (proj2 (proj2 (proj2 (gen_ports_mapping (tiny_with_port (lit "9090:8080:tcp")))))
             (lit "9090") (lit "8080") (lit "tcp")).
    + reflexivity.
    + no_char.
    + no_char.
Defined.

(** C1, as stated, fails at [port = "9090:8080"]: the entry is 8080:9090,
    host port 8080 and container port 9090, not 9090:8080. *)
Lemma gen_ports_host_container_counterexample :
  _gen_ports (tiny_with_port (lit "9090:8080")) = Ok (ports_block (lit "8080") (lit "9090"))
  /\ _gen_ports (tiny_with_port (lit "9090:8080")) <> Ok (ports_block (lit "9090") (lit "8080")).
Proof. split; [reflexivity|]. vm_compute. discriminate. Qed.


(** C2, as stated, fails for the port set to the empty string: [generate]
    raises nothing and returns the manifest of the configuration without a
    port. *)
Lemma generate_empty_port_counterexample :
  generate bare_host (tiny_with_port []) = generate bare_host tiny
  /\ (exists out, generate bare_host (tiny_with_port []) = Ok out)
  /\ (forall e, generate bare_host (tiny_with_port []) <> Raise e).
Proof.
  split; [reflexivity|]. split.
  - eexists. vm_compute. reflexivity.
  - intros e. vm_compute. discriminate.
Qed.

(* ===================================================================== *)
(** * The model path *)
(* ===================================================================== *)

Lemma init_src_model_path (mn src dest : str) (ct mm : option (str * str))
      (a : Args) (ea : list str) :
  src_model_path (__init__ mn (src, dest) ct mm a ea) = Py.removeprefix (lit "oci://") src.
Proof. unfold __init__. destruct ct as [[? ?]|], mm as [[? ?]|]; reflexivity. Qed.

Lemma init_dest_model_path (mn src dest : str) (ct mm : option (str * str))
      (a : Args) (ea : list str) :
  dest_model_path (__init__ mn (src, dest) ct mm a ea) = dest.
Proof. unfold __init__. destruct ct as [[? ?]|], mm as [[? ?]|]; reflexivity. Qed.

(** C5, as the code has it: [__init__] removes one leading [oci://] from
    the model source path and nothing else; a path that does not start with
    [oci://] is used as it is. The model mount is built from the result. *)
Theorem init_strips_oci_prefix (mn src dest : str) (ct mm : option (str * str))
        (a : Args) (ea : list str) :
  (forall r, src = lit "oci://" ++ r ->
             src_model_path (__init__ mn (src, dest) ct mm a ea) = r)
  /\ (Py.startswith (lit "oci://") src = false ->
      src_model_path (__init__ mn (src, dest) ct mm a ea) = src)
  /\ _gen_model_volume (__init__ mn (src, dest) ct mm a ea)
     = bind_mount (src_model_path (__init__ mn (src, dest) ct mm a ea)) dest.
Proof.
  rewrite init_src_model_path. split; [|split].
  - intros r ->. apply removeprefix_app.
  - apply removeprefix_other.
  - unfold _gen_model_volume. now rewrite init_src_model_path, init_dest_model_path.
Qed.

Lemma init_strips_oci_prefix_witness :
  src_model_path oci_model = lit "quay.io/org/tiny:latest"
  /\ src_model_path tiny = lit "/models/tiny.gguf".
Proof.
  split.
  - apply (proj1 (init_strips_oci_prefix (lit "tiny") (lit "oci://quay.io/org/tiny:latest")
                    (lit "/mnt/models/model.file") None None
                    (no_args (lit "quay.io/ramalama/ramalama:latest")) [])).
    reflexivity.
  - apply (proj1 (proj2 (init_strips_oci_prefix (lit "tiny") (lit "/models/tiny.gguf")
                    (lit "/mnt/models/model.file") None None
                    (no_args (lit "quay.io/ramalama/ramalama:latest")) []))).
    reflexivity.
Defined.

(** C5, as stated, fails for a [file://] path: the scheme stays on the
    model source path and in the model mount. *)
Lemma model_path_scheme_counterexample :
  src_model_path file_uri_model = lit "file:///models/tiny.gguf"
  /\ has_uri_scheme_prefix (src_model_path file_uri_model) = true
  /\ _gen_model_volume file_uri_model
     = bind_mount (lit "file:///models/tiny.gguf") (lit "/mnt/models/model.file").
Proof. repeat split; reflexivity. Qed.


(* ===================================================================== *)
(** * The volumes section *)
(* ===================================================================== *)

Lemma gen_volumes_shape (deps : Deps) (c : Compose) :
  _gen_volumes deps c =
    lit "    volumes:"
    ++ bind_mount (src_model_path c) (dest_model_path c)
    ++ corpus_mount deps c
    ++ optional_mount deps (src_chat_template_path c) (dest_chat_template_path c)
    ++ optional_mount deps (src_mmproj_path c) (dest_mmproj_path c).
Proof.
  unfold _gen_volumes, optional_mount, corpus_mount, _gen_model_volume,
    _gen_chat_template_volume, _gen_mmproj_volume.
  destruct (truthy_opt (args_rag (args c)));
    destruct (truthy (src_chat_template_path c)
              && path_exists deps (src_chat_template_path c));
    destruct (truthy (src_mmproj_path c) && path_exists deps (src_mmproj_path c));
    repeat rewrite <- app_assoc; repeat rewrite app_nil_r; reflexivity.
Qed.

Lemma gen_rag_volume_cases (deps : Deps) (c : Compose) (r : str) :
  args_rag (args c) = Some r ->
  (forall ref, r = lit "oci:" ++ ref ->
               _gen_rag_volume deps c = image_volume ref (RAG_DIR deps))
  /\ (Py.startswith (lit "oci:") r = false -> path_exists deps r = true ->
      _gen_rag_volume deps c = bind_mount r (RAG_DIR deps))
  /\ (Py.startswith (lit "oci:") r = false -> path_exists deps r = false ->
      _gen_rag_volume deps c = []).
Proof.
  intros Hr. unfold _gen_rag_volume. rewrite Hr. split; [|split].
  - intros ref ->. rewrite startswith_app, removeprefix_app. reflexivity.
  - intros -> ->. reflexivity.
  - intros -> ->. reflexivity.
Qed.

(** C4: for a configured corpus source [r], the volumes section is the
    heading, the model mount, the corpus mount and the two optional mounts,
    where the corpus mount is: for [r = oci:ref], the long-form image volume
    with source [ref], target [RAG_DIR] and [readonly: true]; otherwise, for
    an existing path, the bind mount [r:RAG_DIR:ro]; otherwise nothing. *)
Theorem gen_volumes_corpus_mount (deps : Deps) (c : Compose) (r : str) :
  args_rag (args c) = Some r -> r <> [] ->
  _gen_volumes deps c =
    lit "    volumes:"
    ++ bind_mount (src_model_path c) (dest_model_path c)
    ++ _gen_rag_volume deps c
    ++ optional_mount deps (src_chat_template_path c) (dest_chat_template_path c)
    ++ optional_mount deps (src_mmproj_path c) (dest_mmproj_path c)
  /\ (forall ref, r = lit "oci:" ++ ref ->
        _gen_rag_volume deps c =
          nl ++ lit "      - type: image" ++
          nl ++ lit "        source: " ++ ref ++
          nl ++ lit "        target: " ++ RAG_DIR deps ++
          nl ++ lit "        image:" ++
          nl ++ lit "          readonly: true")
  /\ (Py.startswith (lit "oci:") r = false -> path_exists deps r = true ->
      _gen_rag_volume deps c =
        nl ++ lit "      - " ++ dq ++ r ++ lit ":" ++ RAG_DIR deps ++ lit ":ro" ++ dq)
  /\ (Py.startswith (lit "oci:") r = false -> path_exists deps r = false ->
      _gen_rag_volume deps c = []).
Proof.
  intros Hr Hne. split.
  - rewrite gen_volumes_shape. unfold corpus_mount. rewrite Hr.
    destruct r; [congruence|reflexivity].
  - apply (gen_rag_volume_cases deps c Hr).
Qed.

Lemma gen_volumes_corpus_mount_witness :
  _gen_rag_volume bare_host (with_rag (lit "oci:quay.io/org/corpus:v1"))
  = image_volume (lit "quay.io/org/corpus:v1") (lit "/rag")
  /\ _gen_rag_volume everything_exists (with_rag (lit "/data/corpus"))
     = bind_mount (lit "/data/corpus") (lit "/rag")
  /\ _gen_rag_volume bare_host (with_rag (lit "/data/corpus")) = []
  /\ _gen_volumes bare_host (with_rag (lit "/data/corpus"))
     = lit "    volumes:" ++ bind_mount (lit "/models/tiny.gguf") (lit "/mnt/models/model.file").
Proof.
  split; [|split; [|split]].
  - apply (proj1 (proj2 (@gen_volumes_corpus_mount bare_host
             (with_rag (lit "oci:quay.io/org/corpus:v1"))
             (lit "oci:quay.io/org/corpus:v1") eq_refl ltac:(discriminate)))).
    reflexivity.
  - apply (proj1 (proj2 (proj2 (@gen_volumes_corpus_mount everything_exists
             (with_rag (lit "/data/corpus")) (lit "/data/corpus")
             eq_refl ltac:(discriminate)))));
      reflexivity.
  - apply (proj2 (proj2 (proj2 (@gen_volumes_corpus_mount bare_host
             (with_rag (lit "/data/corpus")) (lit "/data/corpus")
             eq_refl ltac:(discriminate)))));
      reflexivity.
  - rewrite (proj1 (@gen_volumes_corpus_mount bare_host
             (with_rag (lit "/data/corpus")) (lit "/data/corpus")
             eq_refl ltac:(discriminate))).
    reflexivity.
Defined.

Lemma optional_mount_render (deps : Deps) (src dest : str) :
  optional_mount deps src dest = concat (map render_mount (optional_mounts deps src dest)).
Proof.
  unfold optional_mount, optional_mounts.
  destruct (truthy src && path_exists deps src); [|reflexivity].
  cbn [map concat render_mount]. now rewrite app_nil_r.
Qed.

Lemma corpus_mount_render (deps : Deps) (c : Compose) :
  corpus_mount deps c = concat (map render_mount (corpus_mounts deps c)).
Proof.
  unfold corpus_mount, corpus_mounts, _gen_rag_volume.
  destruct (args_rag (args c)) as [[|ch r]|]; try reflexivity.
  cbn [truthy_opt truthy is_empty negb].
  destruct (Py.startswith (lit "oci:") (ch :: r));
    [|destruct (path_exists deps (ch :: r))];
    cbn [map concat render_mount]; rewrite ?app_nil_r; reflexivity.
Qed.

Lemma render_mount_read_only (m : mount) : read_only_mount (render_mount m).
Proof. destruct m; constructor. Qed.

(** C8: the volumes section is its heading followed by the entries of
    [emitted_mounts] (the model mount, then the corpus, chat-template and
    projector mounts that apply), and every one of them is written
    read-only: a bind mount as [src:dest:ro], the image volume with
    [readonly: true]. *)
Theorem gen_volumes_read_only (deps : Deps) (c : Compose) :
  _gen_volumes deps c
  = lit "    volumes:" ++ concat (map render_mount (emitted_mounts deps c))
  /\ Forall (fun m => read_only_mount (render_mount m)) (emitted_mounts deps c)
  /\ (forall src dest,
        render_mount (Bind src dest)
        = nl ++ lit "      - " ++ dq ++ src ++ lit ":" ++ dest ++ lit ":ro" ++ dq)
  /\ (forall source target,
        exists body,
          render_mount (ImageVolume source target)
          = body ++ nl ++ lit "          readonly: true").
Proof.
  split; [|split; [|split]].
  - rewrite gen_volumes_shape, corpus_mount_render, !optional_mount_render.
    unfold emitted_mounts. rewrite !map_app, !concat_app.
    cbn [map concat render_mount]. now rewrite app_nil_r.
  - apply Forall_forall. intros m _. apply render_mount_read_only.
  - reflexivity.
  - intros source target. eexists. cbn [render_mount]. unfold image_volume.
    rewrite !app_assoc. reflexivity.
Qed.

(* ===================================================================== *)
(** * The environment section *)
(* ===================================================================== *)

Lemma env_fold_entries (env_vars : list (str * str)) (acc : str) :
  fold_left
    (fun env_spec kv => env_spec ++ nl ++ lit "      - " ++ fst kv ++ lit "=" ++ snd kv)
    env_vars acc
  = acc ++ env_entries env_vars.
Proof.
  revert acc. induction env_vars as [|kv l IH]; intros acc; cbn [fold_left].
  - unfold env_entries. cbn [map concat]. now rewrite app_nil_r.
  - rewrite IH. unfold env_entries. rewrite map_cons, concat_cons.
    rewrite <- !app_assoc. reflexivity.
Qed.

Lemma gen_environment_render (deps : Deps) (c : Compose) :
  _gen_environment deps c =
    (env_vars <-
       (if truthy_opt (args_env (args c))
        then apply_env (get_accel_env_vars deps)
                       (match args_env (args c) with Some l => l | None => [] end)
        else Ok (get_accel_env_vars deps)) ;;
     Ok (env_block env_vars)).
Proof.
  unfold _gen_environment, env_block.
  destruct (if truthy_opt (args_env (args c)) then _ else _) as [d|e]; simpl; [|reflexivity].
  destruct d; [reflexivity|]. cbn [is_empty]. now rewrite env_fold_entries.
Qed.

Lemma gen_environment_no_overrides (deps : Deps) (c : Compose) :
  truthy_opt (args_env (args c)) = false ->
  _gen_environment deps c = Ok (env_block (get_accel_env_vars deps)).
Proof. intros H. rewrite gen_environment_render, H. reflexivity. Qed.

Lemma split_override (kv : str * str) :
  ~ In equals (fst kv) ->
  Py.split equals (Some 1) (override kv) = [fst kv; snd kv].
Proof.
  intros H. unfold override. change (lit "=" ++ snd kv) with (equals :: snd kv).
  rewrite split_at_sep by assumption. now rewrite split_zero.
Qed.

Lemma apply_env_pairs (d kvs : list (str * str)) :
  Forall (fun kv => ~ In equals (fst kv)) kvs ->
  apply_env d (map override kvs) = Ok (apply_pairs d kvs).
Proof.
  intros H. revert d. induction H as [|kv kvs Hk _ IH]; intros d; [reflexivity|].
  cbn [map apply_env]. fold equals. rewrite (split_override _ Hk). cbn. apply IH.
Qed.

Lemma existsb_str_eqb (k : str) (l : list str) :
  existsb (str_eqb k) l = true <-> In k l.
Proof.
  rewrite existsb_exists. split.
  - intros (x & Hin & Hx). apply str_eqb_eq in Hx. now subst.
  - intros Hin. exists k. split; [assumption|apply str_eqb_refl].
Qed.

Lemma dict_set_keys (d : list (str * str)) (k v : str) :
  map fst (dict_set d k v) =
    if existsb (str_eqb k) (map fst d) then map fst d else map fst d ++ [k].
Proof.
  induction d as [|[k0 v0] d IH]; [reflexivity|].
  cbn [dict_set map fst existsb].
  destruct (str_eqb k0 k) eqn:E.
  - apply str_eqb_eq in E. subst k0. now rewrite str_eqb_refl.
  - assert (E' : str_eqb k k0 = false).
    { apply str_eqb_neq. apply str_eqb_neq in E. congruence. }
    rewrite E'. cbn [orb map fst]. rewrite IH.
    now destruct (existsb (str_eqb k) (map fst d)).
Qed.

Lemma dict_set_get (d : list (str * str)) (k v key : str) :
  dict_get (dict_set d k v) key =
    if str_eqb k key then Some v else dict_get d key.
Proof.
  induction d as [|[k0 v0] d IH]; [reflexivity|].
  cbn [dict_set dict_get].
  destruct (str_eqb k0 k) eqn:E.
  - apply str_eqb_eq in E. subst k0. cbn [dict_get].
    now destruct (str_eqb k key).
  - cbn [dict_get]. rewrite IH.
    destruct (str_eqb k0 key) eqn:E0; [|reflexivity].
    apply str_eqb_eq in E0. subst k0.
    assert (E' : str_eqb k key = false).
    { apply str_eqb_neq. apply str_eqb_neq in E. congruence. }
    now rewrite E'.
Qed.

Lemma apply_pairs_keys (kvs d : list (str * str)) :
  map fst (apply_pairs d kvs) = map fst d ++ new_keys (map fst d) (map fst kvs).
Proof.
  revert d. induction kvs as [|[k v] kvs IH]; intros d.
  - cbn. now rewrite app_nil_r.
  - unfold apply_pairs in *. cbn [fold_left map fst snd new_keys].
    rewrite IH, dict_set_keys.
    destruct (existsb (str_eqb k) (map fst d)); [reflexivity|].
    now rewrite <- app_assoc.
Qed.

Lemma apply_pairs_get (kvs d : list (str * str)) (key : str) :
  dict_get (apply_pairs d kvs) key =
    match last_override kvs key with
    | Some v => Some v
    | None => dict_get d key
    end.
Proof.
  revert d. induction kvs as [|[k v] kvs IH]; intros d; [reflexivity|].
  unfold apply_pairs in *. cbn [fold_left fst snd last_override].
  rewrite IH, dict_set_get.
  destruct (last_override kvs key); [reflexivity|].
  now destruct (str_eqb k key).
Qed.

(** C10: with the overrides [KEY=VALUE] given by the pairs [kvs], the
    environment section lists the items of a dict [env_vars] whose keys are
    the accelerator keys, in their order, followed by the keys the overrides
    introduce, each at its first occurrence and in the order given; the
    value of a key is the one of its last override, or the accelerator value
    when no override names it. *)
Theorem gen_environment_order (deps : Deps) (c : Compose) (kvs : list (str * str)) :
  args_env (args c) = Some (map override kvs) ->
  Forall (fun kv => ~ In equals (fst kv)) kvs ->
  exists env_vars : list (str * str),
    _gen_environment deps c = Ok (env_block env_vars)
    /\ env_block env_vars =
         (if is_empty env_vars then []
          else lit "    environment:"
               ++ concat (map (fun kv => nl ++ lit "      - " ++ fst kv ++ lit "=" ++ snd kv)
                              env_vars))
    /\ map fst env_vars =
         map fst (get_accel_env_vars deps)
         ++ new_keys (map fst (get_accel_env_vars deps)) (map fst kvs)
    /\ forall key,
         dict_get env_vars key =
           match last_override kvs key with
           | Some v => Some v
           | None => dict_get (get_accel_env_vars deps) key
           end.
Proof.
  intros He Hk.
  exists (apply_pairs (get_accel_env_vars deps) kvs).
  split; [|split; [reflexivity|split]].
  - rewrite gen_environment_render, He.
    destruct kvs as [|kv kvs]; [reflexivity|].
    cbn [truthy_opt truthy is_empty map negb].
    change (override kv :: map override kvs) with (map override (kv :: kvs)).
    now rewrite apply_env_pairs.
  - apply apply_pairs_keys.
  - intros key. apply apply_pairs_get.
Qed.

Lemma gen_environment_order_witness :
  exists env_vars : list (str * str),
    _gen_environment two_accel_vars
      (with_env [lit "NEW=a"; lit "CUDA_VISIBLE_DEVICES=7"; lit "OTHER=b"; lit "NEW=c"])
    = Ok (env_block env_vars)
    /\ map fst env_vars =
         [lit "HIP_VISIBLE_DEVICES"; lit "CUDA_VISIBLE_DEVICES"; lit "NEW"; lit "OTHER"]
    /\ dict_get env_vars (lit "CUDA_VISIBLE_DEVICES") = Some (lit "7")
    /\ dict_get env_vars (lit "HIP_VISIBLE_DEVICES") = Some (lit "0")
    /\ dict_get env_vars (lit "NEW") = Some (lit "c").
Proof.
  destruct (@gen_environment_order two_accel_vars
              (with_env [lit "NEW=a"; lit "CUDA_VISIBLE_DEVICES=7"; lit "OTHER=b"; lit "NEW=c"])
              [(lit "NEW", lit "a"); (lit "CUDA_VISIBLE_DEVICES", lit "7");
               (lit "OTHER", lit "b"); (lit "NEW", lit "c")]
              eq_refl)
    as (env_vars & Hgen & _ & Hkeys & Hget).
  - repeat constructor; no_char.
  - exists env_vars. split; [exact Hgen|]. split; [exact Hkeys|].
    split; [|split]; rewrite Hget; reflexivity.
Defined.

(* ===================================================================== *)
(** * Lines: splitlines, strip and the clean-up *)
(* ===================================================================== *)

Lemma splitlines_cons (c : char) (t : str) :
  Py.splitlines (c :: t) =
    if N.eqb c 13 then
      match t with
      | d :: t' => if N.eqb d 10 then [] :: Py.splitlines t'
                   else [] :: Py.splitlines t
      | [] => [[]]
      end
    else if Py.is_linebreak c then [] :: Py.splitlines t
    else
      match Py.splitlines t with
      | [] => [[c]]
      | x :: xs => (c :: x) :: xs
      end.
Proof. reflexivity. Qed.

Lemma cr_is_linebreak (c : char) : N.eqb c 13 = true -> Py.is_linebreak c = true.
Proof. intros H. apply N.eqb_eq in H. now subst. Qed.

Lemma splitlines_one_line (s : str) : Forall (fun l => one_line l = true) (Py.splitlines s).
Proof.
  remember (length s) as n eqn:Hn. revert s Hn.
  induction n as [n IH] using lt_wf_ind. intros s ->.
  destruct s as [|c t]; [constructor|].
  rewrite splitlines_cons.
  destruct (N.eqb c 13) eqn:Ecr.
  - destruct t as [|d t']; [repeat constructor|].
    destruct (N.eqb d 10); (constructor; [reflexivity|]).
    + apply (IH (length t')); simpl; [lia|reflexivity].
    + apply (IH (length (d :: t'))); simpl; [lia|reflexivity].
  - destruct (Py.is_linebreak c) eqn:Elb.
    + constructor; [reflexivity|]. apply (IH (length t)); simpl; [lia|reflexivity].
    + assert (Ht : Forall (fun l => one_line l = true) (Py.splitlines t))
        by (apply (IH (length t)); simpl; [lia|reflexivity]).
      destruct (Py.splitlines t) as [|x xs].
      * repeat constructor. unfold one_line. simpl. now rewrite Elb.
      * inversion Ht; subst. constructor; [|assumption].
        unfold one_line in *. simpl. now rewrite Elb.
Qed.

(** A text without a boundary is one line, unless it is empty. *)
Lemma splitlines_plain (a : str) :
  one_line a = true -> a <> [] -> Py.splitlines a = [a].
Proof.
  induction a as [|c a IH]; [congruence|]. intros H _.
  unfold one_line in H. simpl in H. apply andb_true_iff in H as [Hc Ha].
  apply negb_true_iff in Hc. rewrite splitlines_cons, Hc.
  destruct (N.eqb c 13) eqn:Ecr; [apply cr_is_linebreak in Ecr; congruence|].
  destruct a as [|d a]; [reflexivity|].
  rewrite IH; [reflexivity|exact Ha|discriminate].
Qed.

(** A line followed by a newline, then the rest. *)
Lemma splitlines_app_nl (a rest : str) :
  one_line a = true -> Py.splitlines (a ++ nl ++ rest) = a :: Py.splitlines rest.
Proof.
  induction a as [|c a IH]; intros H.
  - reflexivity.
  - unfold one_line in H. simpl in H. apply andb_true_iff in H as [Hc Ha].
    apply negb_true_iff in Hc. rewrite <- app_comm_cons, splitlines_cons, Hc.
    destruct (N.eqb c 13) eqn:Ecr; [apply cr_is_linebreak in Ecr; congruence|].
    now rewrite (IH Ha).
Qed.

Lemma splitlines_join (ls : list str) :
  Forall (fun l => one_line l = true /\ l <> []) ls ->
  Py.splitlines (Py.join nl ls) = ls.
Proof.
  induction 1 as [|x ls [Hx Hne] Hls IH]; [reflexivity|].
  destruct ls as [|y ls].
  - simpl. now apply splitlines_plain.
  - change (Py.join nl (x :: y :: ls)) with (x ++ nl ++ Py.join nl (y :: ls)).
    rewrite splitlines_app_nl by assumption. now rewrite IH.
Qed.

Lemma split_at_sep_unbounded (sep : char) (a b : str) :
  ~ In sep a -> Py.split sep None (a ++ sep :: b) = a :: Py.split sep None b.
Proof.
  induction a as [|c a IH]; simpl; intros H.
  - now rewrite N.eqb_refl.
  - destruct (N.eqb_spec c sep) as [->|Hne]; [exfalso; auto|].
    rewrite IH; auto.
Qed.

Lemma one_line_no_newline (l : str) : one_line l = true -> ~ In 10%N l.
Proof.
  unfold one_line. rewrite forallb_forall. intros H Hin.
  apply H in Hin. discriminate.
Qed.

Lemma split_join (ls : list str) :
  Forall (fun l => one_line l = true) ls -> ls <> [] ->
  Py.split 10%N None (Py.join nl ls) = ls.
Proof.
  induction 1 as [|x ls Hx Hls IH]; [congruence|]. intros _.
  destruct ls as [|y ls].
  - simpl. apply split_no_sep. now apply one_line_no_newline.
  - change (Py.join nl (x :: y :: ls)) with (x ++ 10%N :: Py.join nl (y :: ls)).
    rewrite split_at_sep_unbounded by now apply one_line_no_newline.
    rewrite IH; [reflexivity|discriminate].
Qed.

Lemma lstrip_nil (s : str) : Py.lstrip s = [] <-> blank s = true.
Proof.
  unfold blank. induction s as [|c s IH]; simpl; [tauto|].
  destruct (Py.isspace c); simpl; [exact IH|]. split; discriminate.
Qed.

Lemma lstrip_blank (s : str) : blank (Py.lstrip s) = blank s.
Proof.
  unfold blank. induction s as [|c s IH]; simpl; [reflexivity|].
  destruct (Py.isspace c) eqn:E; simpl; [exact IH|]. now rewrite E.
Qed.

Lemma blank_rev (s : str) : blank (rev s) = blank s.
Proof.
  unfold blank. induction s as [|c s IH]; simpl; [reflexivity|].
  rewrite forallb_app, IH. simpl. rewrite andb_true_r. apply andb_comm.
Qed.

(** [line.strip()] is empty exactly for a blank line. *)
Lemma strip_nil (s : str) : Py.strip s = [] <-> blank s = true.
Proof.
  unfold Py.strip, Py.rstrip.
  rewrite <- (lstrip_blank s), <- (blank_rev (Py.lstrip s)), <- lstrip_nil.
  split; intros H.
  - apply (f_equal (@rev char)) in H. now rewrite rev_involutive in H.
  - now rewrite H.
Qed.

Lemma truthy_strip (s : str) : truthy (Py.strip s) = negb (blank s).
Proof.
  pose proof (strip_nil s) as H. unfold truthy.
  destruct (Py.strip s) eqn:E, (blank s) eqn:B; simpl; try reflexivity.
  - destruct H as [H _]. specialize (H eq_refl). discriminate.
  - destruct H as [_ H]. specialize (H eq_refl). discriminate.
Qed.

Lemma blank_nil_or (s : str) : blank s = false -> s <> [].
Proof. intros H ->. discriminate. Qed.

Lemma kept_lines_spec (s : str) :
  Forall (fun l => blank l = false /\ one_line l = true) (kept_lines s).
Proof.
  unfold kept_lines. apply Forall_forall. intros l Hin.
  apply filter_In in Hin as [Hin Hl].
  rewrite truthy_strip in Hl. apply negb_true_iff in Hl. split; [assumption|].
  pose proof (splitlines_one_line s) as H. rewrite Forall_forall in H. auto.
Qed.

(** The lines of the cleaned text, by [splitlines] and by splitting at the
    newlines, are the kept lines. *)
Lemma cleanup_lines (s : str) :
  Py.splitlines (cleanup s) = kept_lines s
  /\ (kept_lines s <> [] -> Py.split 10%N None (cleanup s) = kept_lines s).
Proof.
  pose proof (kept_lines_spec s) as H. unfold cleanup. fold (kept_lines s). split.
  - apply splitlines_join. eapply Forall_impl; [|exact H].
    intros l [Hb Ho]. split; [assumption|now apply blank_nil_or].
  - apply split_join. eapply Forall_impl; [|exact H]. now intros l [_ Ho].
Qed.

(* ===================================================================== *)
(** * generate *)
(* ===================================================================== *)

Lemma generate_inv (deps : Deps) (c : Compose) (out : list str) (f : PlainFile) :
  generate deps c = Ok (out, f) ->
  exists ports env,
    _gen_ports c = Ok ports
    /\ _gen_environment deps c = Ok env
    /\ out = [progress_line]
    /\ f = {| filename := lit "docker-compose.yaml";
              content := cleanup (template deps c (_gen_volumes deps c) ports env
                                           (_gen_devices deps) (_gen_gpu_deployment c)
                                           (_gen_command c)) |}.
Proof.
  unfold generate. intros H.
  destruct (_gen_ports c) as [ports|e]; [|discriminate].
  destruct (_gen_environment deps c) as [env|e]; [|discriminate].
  cbn [bind] in H. unfold genfile in H. injection H as <- <-.
  exists ports, env. repeat split; reflexivity.
Qed.

Lemma generate_of_sections (deps : Deps) (c : Compose) (ports env : str) :
  _gen_ports c = Ok ports -> _gen_environment deps c = Ok env ->
  generate deps c =
    Ok ([progress_line],
        {| filename := lit "docker-compose.yaml";
           content := cleanup (template deps c (_gen_volumes deps c) ports env
                                        (_gen_devices deps) (_gen_gpu_deployment c)
                                        (_gen_command c)) |}).
Proof. unfold generate. intros -> ->. reflexivity. Qed.

Lemma template_banner (deps : Deps) (c : Compose) (v p e d g cmd : str) :
  exists rest, template deps c v p e d g cmd = banner ++ nl ++ rest.
Proof. unfold template. eexists. reflexivity. Qed.

Lemma kept_lines_template (deps : Deps) (c : Compose) (v p e d g cmd : str) :
  exists ls, kept_lines (template deps c v p e d g cmd) = banner :: ls.
Proof.
  destruct (template_banner deps c v p e d g cmd) as [rest ->].
  unfold kept_lines. rewrite splitlines_app_nl by reflexivity.
  eexists. reflexivity.
Qed.

(** C9: no line of the text [generate] returns is empty or holds white
    space only, whether the lines are taken by [splitlines] or by splitting
    at the newline characters. *)
Theorem generate_no_blank_line (deps : Deps) (c : Compose)
        (out : list str) (f : PlainFile) :
  generate deps c = Ok (out, f) ->
  Forall (fun line => blank line = false) (Py.splitlines (content f))
  /\ Forall (fun line => blank line = false) (Py.split 10%N None (content f)).
Proof.
  intros H. apply generate_inv in H as (ports & env & _ & _ & _ & ->).
  cbn [content].
  set (t := template deps c (_gen_volumes deps c) ports env (_gen_devices deps)
                     (_gen_gpu_deployment c) (_gen_command c)).
  destruct (cleanup_lines t) as [Hs Hn].
  assert (Hk : Forall (fun line => blank line = false) (kept_lines t)).
  { eapply Forall_impl; [|apply kept_lines_spec]. now intros l [Hb _]. }
  split.
  - now rewrite Hs.
  - rewrite Hn; [assumption|].
    destruct (kept_lines_template deps c (_gen_volumes deps c) ports env
                (_gen_devices deps) (_gen_gpu_deployment c) (_gen_command c))
      as [ls Hls].
    fold t in Hls. rewrite Hls. discriminate.
Qed.

Lemma generate_no_blank_line_witness :
  exists out f,
    generate everything_exists full_sample = Ok (out, f)
    /\ Forall (fun line => blank line = false) (Py.splitlines (content f))
    /\ Forall (fun line => blank line = false) (Py.split 10%N None (content f)).
Proof.
  eexists _, _. split.
  - vm_compute. reflexivity.
  - apply (@generate_no_blank_line everything_exists full_sample [progress_line]).
    vm_compute. reflexivity.
Defined.

Lemma first_occurrence (x : char) (l : str) :
  In x l -> exists a b, l = a ++ x :: b /\ ~ In x a.
Proof.
  induction l as [|c l IH]; [contradiction|]. intros Hin.
  destruct (N.eq_dec c x) as [->|Hne].
  - exists [], l. split; [reflexivity|auto].
  - destruct Hin as [->|Hin]; [congruence|].
    destruct (IH Hin) as (a & b & -> & Ha).
    exists (c :: a), b. split; [reflexivity|].
    intros [E|E]; [congruence|auto].
Qed.

(** The overrides are applied when each of them holds [=]; the first one
    that does not makes the unpacking raise [ValueError]. *)
Lemma apply_env_returns (env : list str) (d : list (str * str)) :
  Forall (fun e => In equals e) env -> exists d', apply_env d env = Ok d'.
Proof.
  intros H. revert d. induction H as [|e env He _ IH]; intros d.
  - now exists d.
  - destruct (first_occurrence _ _ He) as (k & v & -> & Hk).
    cbn [apply_env]. fold equals. rewrite split_at_sep by assumption.
    rewrite split_zero. cbn. apply IH.
Qed.

Lemma apply_env_raises (env : list str) (d : list (str * str)) :
  Exists malformed env -> exists e, apply_env d env = Raise e.
Proof.
  intros H. revert d. induction env as [|o env IH]; intros d.
  - inversion H.
  - cbn [apply_env]. fold equals.
    destruct (in_dec N.eq_dec equals o) as [Hin|Hout].
    + destruct (first_occurrence _ _ Hin) as (k & v & -> & Hk).
      rewrite split_at_sep by assumption. rewrite split_zero. cbn.
      apply IH. inversion H; subst; [|assumption].
      exfalso. apply H1. apply in_or_app. right. now left.
    + rewrite split_no_sep by assumption. cbn. eauto.
Qed.

(** [generate] returns a file whenever every override holds [=]. *)
Lemma generate_returns (deps : Deps) (c : Compose) :
  (forall env, args_env (args c) = Some env -> Forall (fun e => In equals e) env) ->
  exists f, generate deps c = Ok ([progress_line], f)
            /\ filename f = lit "docker-compose.yaml".
Proof.
  intros H. destruct (gen_ports_total c) as [ports Hp].
  assert (He : exists env, _gen_environment deps c = Ok env).
  { rewrite gen_environment_render.
    destruct (args_env (args c)) as [env|] eqn:E; [|cbn; eauto].
    destruct (truthy_opt (Some env)); [|cbn; eauto].
    destruct (apply_env_returns (get_accel_env_vars deps) (H env eq_refl)) as [d' ->].
    cbn. eauto. }
  destruct He as [env He].
  rewrite (generate_of_sections deps c Hp He). eexists. split; reflexivity.
Qed.

(** [generate] raises when an override holds no [=]. *)
Lemma generate_raises (deps : Deps) (c : Compose) (env : list str) :
  args_env (args c) = Some env -> Exists malformed env ->
  exists e, generate deps c = Raise e.
Proof.
  intros E H. unfold generate.
  destruct (gen_ports_total c) as [ports ->]. cbn [bind].
  rewrite gen_environment_render, E.
  assert (Ht : truthy_opt (Some env) = true) by (destruct env; [inversion H|reflexivity]).
  rewrite Ht.
  destruct (apply_env_raises (get_accel_env_vars deps) H) as [e ->]. cbn. eauto.
Qed.

(* ===================================================================== *)
(** * Absent optional inputs *)
(* ===================================================================== *)


(** C3, as the code has it: with no corpus, chat template, projector, port,
    overrides and command, [generate] raises nothing and returns the file
    [docker-compose.yaml]; the volumes section holds the model mount alone
    and the command section is empty, but the port section is NOT omitted:
    it is the default mapping 8080:8080, and the environment section holds
    the accelerator variables (it is empty when there are none). *)
Theorem generate_without_optional_inputs (deps : Deps) (mn src dest : str) (a : Args) :
  args_rag a = None -> args_port a = None -> args_env a = None ->
  _gen_volumes deps (minimal mn src dest a)
  = lit "    volumes:" ++ bind_mount (src_model_path (minimal mn src dest a)) dest
  /\ _gen_ports (minimal mn src dest a) = Ok (ports_block (lit "8080") (lit "8080"))
  /\ _gen_environment deps (minimal mn src dest a)
     = Ok (env_block (get_accel_env_vars deps))
  /\ _gen_command (minimal mn src dest a) = []
  /\ generate deps (minimal mn src dest a) =
       Ok ([progress_line],
           {| filename := lit "docker-compose.yaml";
              content :=
                cleanup
                  (template deps (minimal mn src dest a)
                     (lit "    volumes:"
                      ++ bind_mount (src_model_path (minimal mn src dest a)) dest)
                     (ports_block (lit "8080") (lit "8080"))
                     (env_block (get_accel_env_vars deps))
                     (_gen_devices deps)
                     (_gen_gpu_deployment (minimal mn src dest a))
                     []) |}).
Proof.
  intros Hr Hp He.
  assert (Hv : _gen_volumes deps (minimal mn src dest a)
               = lit "    volumes:"
                 ++ bind_mount (src_model_path (minimal mn src dest a)) dest).
  { rewrite gen_volumes_shape. unfold corpus_mount, optional_mount.
    cbn [minimal __init__ args src_chat_template_path src_mmproj_path dest_model_path
         truthy is_empty negb andb].
    rewrite Hr. cbn [truthy_opt]. now rewrite !app_nil_r. }
  assert (Hports : _gen_ports (minimal mn src dest a)
                   = Ok (ports_block (lit "8080") (lit "8080"))).
  { apply gen_ports_falsy. cbn [minimal __init__ args]. now rewrite Hp. }
  assert (Henv : _gen_environment deps (minimal mn src dest a)
                 = Ok (env_block (get_accel_env_vars deps))).
  { apply gen_environment_no_overrides. cbn [minimal __init__ args]. now rewrite He. }
  assert (Hcmd : _gen_command (minimal mn src dest a) = []) by reflexivity.
  repeat split; try assumption.
  rewrite (generate_of_sections deps _ Hports Henv), Hv, Hcmd. reflexivity.
Qed.

Lemma generate_without_optional_inputs_witness :
  generate bare_host tiny =
    Ok ([progress_line],
        {| filename := lit "docker-compose.yaml";
           content :=
             Py.join nl
               [banner;
                lit "#";
                lit "# Created with ramalama-0.12.0";
                lit "services:";
                lit "  tiny:";
                lit "    container_name: ramalama-tiny";
                lit "    image: quay.io/ramalama/ramalama:latest";
                lit "    volumes:";
                lit "      - " ++ dq ++ lit "/models/tiny.gguf:/mnt/models/model.file:ro" ++ dq;
                lit "    ports:";
                lit "      - " ++ dq ++ lit "8080:8080" ++ dq;
                lit "    restart: unless-stopped"] |}).
Proof.
  eapply eq_trans.
  - exact (proj2 (proj2 (proj2 (proj2
      (@generate_without_optional_inputs bare_host (lit "tiny") (lit "/models/tiny.gguf")
         (lit "/mnt/models/model.file") (no_args (lit "quay.io/ramalama/ramalama:latest"))
         eq_refl eq_refl eq_refl))))).
  - reflexivity.
Defined.

(** C3, as stated, fails for the port section: with every optional input
    absent the manifest still holds a port section, the default mapping. *)
Lemma generate_default_port_counterexample :
  args_port (args tiny) = None
  /\ _gen_ports tiny = Ok (ports_block (lit "8080") (lit "8080"))
  /\ _gen_ports tiny <> Ok []
  /\ exists out f,
       generate bare_host tiny = Ok (out, f)
       /\ In (lit "    ports:") (Py.splitlines (content f))
       /\ In (lit "      - " ++ dq ++ lit "8080:8080" ++ dq) (Py.splitlines (content f)).
Proof.
  split; [reflexivity|]. split; [reflexivity|]. split; [discriminate|].
  eexists _, _. split; [vm_compute; reflexivity|].
  split; vm_compute; tauto.
Qed.

(* ===================================================================== *)
(** * The command section: shlex.split after shlex.join *)
(* ===================================================================== *)

Lemma safe_is_plain (c : char) :
  Shlex.is_safe c = true ->
  Shlex.in_whitespace c = false /\ Shlex.in_quotes c = false
  /\ Shlex.in_escape c = false.
Proof.
  intros H. repeat split.
  - destruct (Shlex.in_whitespace c) eqn:E; [|reflexivity].
    unfold Shlex.in_whitespace in E. simpl in E.
    repeat (apply orb_true_iff in E as [E|E];
            [apply N.eqb_eq in E; subst c; discriminate|]).
    discriminate.
  - destruct (Shlex.in_quotes c) eqn:E; [|reflexivity].
    unfold Shlex.in_quotes in E. simpl in E.
    repeat (apply orb_true_iff in E as [E|E];
            [apply N.eqb_eq in E; subst c; discriminate|]).
    discriminate.
  - destruct (Shlex.in_escape c) eqn:E; [|reflexivity].
    apply N.eqb_eq in E. subst c. discriminate.
Qed.

(** In a word, safe characters are appended to the token. *)
Lemma read_loop_word (w rest : str) (esc : Shlex.lstate) (tok : str) (q : bool) :
  forallb Shlex.is_safe w = true ->
  Shlex.read_loop (w ++ rest) Shlex.SWord esc tok q
  = Shlex.read_loop rest Shlex.SWord esc (tok ++ w) q.
Proof.
  revert tok. induction w as [|c w IH]; intros tok H.
  - now rewrite app_nil_r.
  - simpl in H. apply andb_true_iff in H as [Hc Hw].
    destruct (safe_is_plain c Hc) as (H1 & H2 & H3).
    cbn [app Shlex.read_loop]. rewrite H1, H2, H3, (IH _ Hw).
    now rewrite <- app_assoc.
Qed.

(** Between single quotes, what [quote] wrote for [arg] is read back as
    [arg], up to the closing quote. *)
Lemma read_loop_quoted (arg rest : str) (esc : Shlex.lstate) (tok : str) (q : bool) :
  Shlex.read_loop (Py.replace Shlex.squote quoted_squote arg ++ Shlex.squote :: rest)
                  (Shlex.SQuote Shlex.squote) esc tok q
  = Shlex.read_loop rest Shlex.SWord esc (tok ++ arg) true.
Proof.
  revert tok q. induction arg as [|c arg IH]; intros tok q.
  - cbn. now rewrite app_nil_r.
  - unfold Py.replace. cbn [flat_map]. fold (Py.replace Shlex.squote quoted_squote arg).
    destruct (N.eqb_spec c Shlex.squote) as [->|Hne].
    + unfold quoted_squote. cbn. rewrite IH. now rewrite <- !app_assoc.
    + cbn [app Shlex.read_loop].
      destruct (N.eqb_spec c Shlex.squote) as [|_]; [contradiction|].
      replace (Shlex.in_escapedquotes Shlex.squote) with false by reflexivity.
      rewrite andb_false_r, IH. now rewrite <- app_assoc.
Qed.

(** [read_token] on a quoted argument at the end of the input. *)
Lemma read_token_quote_eof (a : str) :
  Shlex.read_token Shlex.SWhite (Shlex.quote a)
  = Ok {| Shlex.tok_result := Some a; Shlex.tok_state := Shlex.SEof;
          Shlex.tok_rest := [] |}.
Proof.
  unfold Shlex.read_token, Shlex.quote.
  destruct a as [|c a]; [reflexivity|]. cbn [is_empty].
  destruct (forallb Shlex.is_safe (c :: a)) eqn:Hs.
  - simpl in Hs. apply andb_true_iff in Hs as [Hc Ha].
    destruct (safe_is_plain c Hc) as (H1 & H2 & H3).
    cbn [Shlex.read_loop]. rewrite H1, H2, H3.
    pose proof (read_loop_word a [] Shlex.SWhite [c] false Ha) as E.
    rewrite app_nil_r in E. rewrite E. reflexivity.
  - change ([Shlex.squote] ++ dq ++ [Shlex.squote] ++ dq ++ [Shlex.squote])
      with quoted_squote.
    cbn [app Shlex.read_loop]. cbn [Shlex.in_whitespace Shlex.in_escape Shlex.in_quotes
      existsb Shlex.squote N.eqb Pos.eqb orb].
    rewrite read_loop_quoted. reflexivity.
Qed.

(** [read_token] on a quoted argument followed by a space. *)
Lemma read_token_quote_space (a more : str) :
  Shlex.read_token Shlex.SWhite (Shlex.quote a ++ lit " " ++ more)
  = Ok {| Shlex.tok_result := Some a; Shlex.tok_state := Shlex.SWhite;
          Shlex.tok_rest := more |}.
Proof.
  unfold Shlex.read_token, Shlex.quote.
  destruct a as [|c a]; [reflexivity|]. cbn [is_empty].
  destruct (forallb Shlex.is_safe (c :: a)) eqn:Hs.
  - simpl in Hs. apply andb_true_iff in Hs as [Hc Ha].
    destruct (safe_is_plain c Hc) as (H1 & H2 & H3).
    cbn [app Shlex.read_loop]. rewrite H1, H2, H3.
    rewrite (read_loop_word _ _ _ _ _ Ha). reflexivity.
  - change ([Shlex.squote] ++ dq ++ [Shlex.squote] ++ dq ++ [Shlex.squote])
      with quoted_squote.
    rewrite <- !app_assoc.
    cbn [app Shlex.read_loop]. cbn [Shlex.in_whitespace Shlex.in_escape Shlex.in_quotes
      existsb Shlex.squote N.eqb Pos.eqb orb].
    rewrite read_loop_quoted. reflexivity.
Qed.

Lemma shlex_join_cons (a b : str) (r : list str) :
  Shlex.join (a :: b :: r) = Shlex.quote a ++ lit " " ++ Shlex.join (b :: r).
Proof. reflexivity. Qed.

Lemma tokens_join (args : list str) (fuel : nat) :
  args <> [] -> length args < fuel ->
  Shlex.tokens fuel Shlex.SWhite (Shlex.join args) = Ok args.
Proof.
  revert fuel. induction args as [|a args IH]; [congruence|]. intros fuel _ Hf.
  destruct fuel as [|fuel]; [lia|]. cbn [Shlex.tokens].
  destruct args as [|b r].
  - change (Shlex.join [a]) with (Shlex.quote a). rewrite read_token_quote_eof.
    cbn [bind Shlex.tok_result Shlex.tok_state Shlex.tok_rest].
    destruct fuel as [|fuel]; [simpl in Hf; lia|]. reflexivity.
  - rewrite shlex_join_cons, read_token_quote_space.
    cbn [bind Shlex.tok_result Shlex.tok_state Shlex.tok_rest].
    rewrite IH; [reflexivity|discriminate|simpl in *; lia].
Qed.

Lemma quote_length (a : str) : 1 <= length (Shlex.quote a).
Proof.
  unfold Shlex.quote. destruct a as [|c a]; [simpl; lia|]. cbn [is_empty].
  destruct (forallb Shlex.is_safe (c :: a)); simpl; lia.
Qed.

Lemma shlex_join_length (args : list str) :
  length args <= length (Shlex.join args) + 1.
Proof.
  induction args as [|a args IH]; [simpl; lia|].
  destruct args as [|b r].
  - pose proof (quote_length a). change (Shlex.join [a]) with (Shlex.quote a).
    simpl. lia.
  - rewrite shlex_join_cons, !length_app. pose proof (quote_length a).
    simpl in *. lia.
Qed.

(** [shlex.split] undoes [shlex.join]. *)
Lemma shlex_split_join (args : list str) :
  args <> [] -> Shlex.split (Shlex.join args) = Ok args.
Proof.
  intros H. unfold Shlex.split. apply tokens_join; [assumption|].
  pose proof (shlex_join_length args). lia.
Qed.

(** Every call of [read_token] that returns a token consumes input, so the
    number of calls [split] allows is never reached. *)
Lemma read_loop_rest (s : str) (st esc : Shlex.lstate) (tok : str) (q : bool)
      (out : Shlex.token_out) :
  Shlex.read_loop s st esc tok q = Ok out ->
  length (Shlex.tok_rest out) <= length s
  /\ (s <> [] -> length (Shlex.tok_rest out) < length s).
Proof.
  revert st esc tok q. induction s as [|c s IH]; intros st esc tok q H.
  - split; [|congruence].
    destruct st; cbn in H; try discriminate; injection H as <-; simpl; lia.
  - assert (Hrec : forall st' esc' tok' q',
               Shlex.read_loop s st' esc' tok' q' = Ok out ->
               length (Shlex.tok_rest out) < length (c :: s)).
    { intros st' esc' tok' q' H'. apply IH in H' as [H' _]. simpl. lia. }
    assert (Hfin : forall tok' q' st',
               Shlex.finish tok' q' st' s = Ok out ->
               length (Shlex.tok_rest out) < length (c :: s)).
    { intros tok' q' st' H'. injection H' as <-. simpl. lia. }
    assert (length (Shlex.tok_rest out) < length (c :: s)); [|split; [lia|auto]].
    cbn [Shlex.read_loop] in H. destruct st.
    + eapply Hfin; eassumption.
    + destruct (Shlex.in_whitespace c).
      * destruct (truthy tok || q); [eapply Hfin|eapply Hrec]; eassumption.
      * destruct (Shlex.in_escape c); [eapply Hrec; eassumption|].
        destruct (Shlex.in_quotes c); eapply Hrec; eassumption.
    + destruct (Shlex.in_whitespace c).
      * destruct (truthy tok || q); [eapply Hfin|eapply Hrec]; eassumption.
      * destruct (Shlex.in_quotes c); [eapply Hrec; eassumption|].
        destruct (Shlex.in_escape c); eapply Hrec; eassumption.
    + destruct (N.eqb c q0); [eapply Hrec; eassumption|].
      destruct (Shlex.in_escape c && Shlex.in_escapedquotes q0);
        eapply Hrec; eassumption.
    + eapply Hrec; eassumption.
Qed.

Lemma read_token_consumes (st : Shlex.lstate) (s : str) (out : Shlex.token_out) (t : str) :
  Shlex.read_token st s = Ok out -> Shlex.tok_result out = Some t ->
  length (Shlex.tok_rest out) < length s.
Proof.
  intros H Ht. destruct s as [|c s].
  - exfalso. unfold Shlex.read_token in H.
    destruct st; cbn in H; try discriminate; injection H as <-; discriminate.
  - apply read_loop_rest in H as [_ H]. apply H. discriminate.
Qed.

Lemma tokens_fuel (fuel : nat) (st : Shlex.lstate) (s : str) :
  length s < fuel -> Shlex.tokens fuel st s = Shlex.tokens (S fuel) st s.
Proof.
  revert st s. induction fuel as [|fuel IH]; intros st s H; [lia|].
  cbn [Shlex.tokens].
  destruct (Shlex.read_token st s) as [out|e] eqn:E; [|reflexivity].
  cbn [bind]. destruct (Shlex.tok_result out) as [t|] eqn:Et; [|reflexivity].
  pose proof (read_token_consumes _ _ E Et) as Hlen.
  rewrite (IH (Shlex.tok_state out) (Shlex.tok_rest out)) by lia. reflexivity.
Qed.

Lemma split_fuel_enough (s : str) (fuel : nat) :
  length s + 2 <= fuel -> Shlex.tokens fuel Shlex.SWhite s = Shlex.split s.
Proof.
  unfold Shlex.split. intros H.
  replace fuel with ((fuel - (length s + 2)) + (length s + 2)) by lia.
  induction (fuel - (length s + 2)) as [|k IH]; [reflexivity|].
  rewrite <- IH. cbn [Nat.add]. symmetry. apply tokens_fuel. lia.
Qed.


(* ===================================================================== *)
(** * The lines of the manifest, section by section *)
(* ===================================================================== *)

Lemma splitlines_nil_inv (s : str) : Py.splitlines s = [] -> s = [].
Proof.
  destruct s as [|c t]; [reflexivity|]. rewrite splitlines_cons.
  destruct (N.eqb c 13).
  - destruct t as [|d t']; [discriminate|]. destruct (N.eqb d 10); discriminate.
  - destruct (Py.is_linebreak c); [discriminate|].
    destruct (Py.splitlines t); discriminate.
Qed.

(** After a newline the splitting starts afresh. *)
Lemma splitlines_app_newline (a b : str) :
  Py.splitlines (a ++ nl ++ b) = Py.splitlines (a ++ nl) ++ Py.splitlines b.
Proof.
  remember (length a) as n eqn:Hn. revert a Hn.
  induction n as [n IH] using lt_wf_ind. intros a ->.
  destruct a as [|c t]; [reflexivity|].
  rewrite <- !app_comm_cons, !splitlines_cons.
  destruct (N.eqb c 13).
  - destruct t as [|d t']; [reflexivity|].
    rewrite <- !app_comm_cons. destruct (N.eqb d 10).
    + rewrite (IH (length t')); simpl; [reflexivity|lia|reflexivity].
    + rewrite !app_comm_cons.
      rewrite (IH (length (d :: t'))); simpl; [reflexivity|lia|reflexivity].
  - destruct (Py.is_linebreak c).
    + rewrite (IH (length t)); simpl; [reflexivity|lia|reflexivity].
    + rewrite (IH (length t)); simpl; [|lia|reflexivity].
      destruct (Py.splitlines (t ++ nl)) as [|x xs] eqn:E; [|reflexivity].
      apply splitlines_nil_inv in E. destruct t; discriminate.
Qed.

(** A newline at the end adds at most one empty line. *)
Lemma splitlines_snoc_newline (a : str) :
  Py.splitlines (a ++ nl) = Py.splitlines a
  \/ Py.splitlines (a ++ nl) = Py.splitlines a ++ [[]].
Proof.
  remember (length a) as n eqn:Hn. revert a Hn.
  induction n as [n IH] using lt_wf_ind. intros a ->.
  destruct a as [|c t]; [now right|].
  rewrite <- !app_comm_cons, !splitlines_cons.
  destruct (N.eqb c 13).
  - destruct t as [|d t']; [now left|].
    rewrite <- !app_comm_cons. destruct (N.eqb d 10).
    + destruct (IH (length t') ltac:(simpl; lia) t' eq_refl) as [-> | ->]; auto.
    + rewrite !app_comm_cons.
      destruct (IH (length (d :: t')) ltac:(simpl; lia) (d :: t') eq_refl)
        as [-> | ->]; auto.
  - destruct (Py.is_linebreak c).
    + destruct (IH (length t) ltac:(simpl; lia) t eq_refl) as [-> | ->]; auto.
    + destruct (IH (length t) ltac:(simpl; lia) t eq_refl) as [-> | ->]; auto.
      destruct (Py.splitlines t) as [|x xs]; [now left|now right].
Qed.

Lemma kept_lines_snoc_newline (a : str) : kept_lines (a ++ nl) = kept_lines a.
Proof.
  unfold kept_lines. destruct (splitlines_snoc_newline a) as [-> | ->].
  - reflexivity.
  - rewrite filter_app. cbn. now rewrite app_nil_r.
Qed.

(** The kept lines of two texts joined by a newline. *)
Lemma kept_lines_app (a b : str) :
  kept_lines (a ++ nl ++ b) = kept_lines a ++ kept_lines b.
Proof.
  rewrite <- (kept_lines_snoc_newline a). unfold kept_lines.
  now rewrite splitlines_app_newline, filter_app.
Qed.

Lemma kept_lines_newline (b : str) : kept_lines (nl ++ b) = kept_lines b.
Proof. exact (kept_lines_app [] b). Qed.

Lemma kept_lines_app2 (x y b : str) :
  kept_lines (x ++ y ++ nl ++ b) = kept_lines (x ++ y) ++ kept_lines b.
Proof. now rewrite app_assoc, kept_lines_app. Qed.

Lemma kept_lines_app3 (x y z b : str) :
  kept_lines (x ++ y ++ z ++ nl ++ b) = kept_lines (x ++ y ++ z) ++ kept_lines b.
Proof.
  now rewrite (app_assoc y z), (app_assoc x (y ++ z)), kept_lines_app.
Qed.


(** The kept lines of the template: the fixed lines and the kept lines of
    each section, in the order of the template. *)
Lemma kept_lines_of_template (deps : Deps) (c : Compose) (ports env : str) :
  kept_lines (template deps c (_gen_volumes deps c) ports env (_gen_devices deps)
                       (_gen_gpu_deployment c) (_gen_command c))
  = lines_before_deploy deps c ports env
    ++ kept_lines (_gen_gpu_deployment c)
    ++ lines_after_deploy c.
Proof.
  unfold template, lines_before_deploy, lines_after_deploy.
  rewrite (kept_lines_app banner), (kept_lines_app (lit "#")).
  rewrite kept_lines_app2, kept_lines_newline, (kept_lines_app (lit "services:")).
  rewrite kept_lines_app3, !kept_lines_app2, !kept_lines_app.
  rewrite kept_lines_snoc_newline, <- !app_assoc.
  reflexivity.
Qed.

(** The lines of the text [generate] returns. *)
Lemma generate_lines (deps : Deps) (c : Compose) (out : list str) (f : PlainFile) :
  generate deps c = Ok (out, f) ->
  exists ports env,
    _gen_ports c = Ok ports /\ _gen_environment deps c = Ok env
    /\ Py.splitlines (content f)
       = lines_before_deploy deps c ports env
         ++ kept_lines (_gen_gpu_deployment c)
         ++ lines_after_deploy c.
Proof.
  intros H. apply generate_inv in H as (ports & env & Hp & He & _ & ->).
  exists ports, env. split; [assumption|]. split; [assumption|].
  cbn [content]. rewrite (proj1 (cleanup_lines _)). apply kept_lines_of_template.
Qed.

(** C6: the deploy section is the reservation stanza (driver nvidia, count
    all, capability gpu) exactly when [cuda] occurs somewhere in the image
    reference, and is empty exactly when it does not. In the text [generate]
    returns, the seven lines of the stanza stand between the lines of the
    sections before it and the command section when [cuda] occurs, and
    nothing stands there when it does not. *)
Theorem gen_gpu_deployment_iff_cuda (c : Compose) :
  (_gen_gpu_deployment c = gpu_stanza
   <-> exists pre post, image c = pre ++ lit "cuda" ++ post)
  /\ (_gen_gpu_deployment c = []
      <-> ~ exists pre post, image c = pre ++ lit "cuda" ++ post)
  /\ gpu_stanza = Py.join nl gpu_lines
  /\ forall deps out f,
       generate deps c = Ok (out, f) ->
       exists ports env,
         _gen_ports c = Ok ports /\ _gen_environment deps c = Ok env
         /\ Py.splitlines (content f)
            = lines_before_deploy deps c ports env
              ++ (if Py.contains (lit "cuda") (image c) then gpu_lines else [])
              ++ lines_after_deploy c.
Proof.
  split; [|split; [|split; [reflexivity|]]].
  - unfold _gen_gpu_deployment. rewrite <- contains_spec.
    destruct (Py.contains (lit "cuda") (image c)); cbn [negb]; split; intros H;
      try reflexivity; discriminate.
  - unfold _gen_gpu_deployment. rewrite <- contains_spec.
    destruct (Py.contains (lit "cuda") (image c)); cbn [negb]; split; intros H;
      try reflexivity; try discriminate; congruence.
  - intros deps out f H.
    apply generate_lines in H as (ports & env & Hp & He & Hl).
    exists ports, env. split; [assumption|]. split; [assumption|].
    rewrite Hl. unfold _gen_gpu_deployment.
    destruct (Py.contains (lit "cuda") (image c)); reflexivity.
Qed.

Lemma gen_gpu_deployment_iff_cuda_witness :
  _gen_gpu_deployment (with_image (lit "myorg/llama-cuda:latest")) = gpu_stanza
  /\ _gen_gpu_deployment (with_image (lit "myorg/llama-cpu:latest")) = []
  /\ exists ports env f,
       generate bare_host (with_image (lit "myorg/llama-cuda:latest"))
       = Ok ([progress_line], f)
       /\ Py.splitlines (content f)
          = lines_before_deploy bare_host (with_image (lit "myorg/llama-cuda:latest"))
                                ports env
            ++ gpu_lines
            ++ lines_after_deploy (with_image (lit "myorg/llama-cuda:latest")).
Proof.
  split; [|split].
  - apply (proj1 (gen_gpu_deployment_iff_cuda (with_image (lit "myorg/llama-cuda:latest")))).
    exists (lit "myorg/llama-"), (lit ":latest"). reflexivity.
  - apply (proj1 (proj2 (gen_gpu_deployment_iff_cuda (with_image (lit "myorg/llama-cpu:latest"))))).
    rewrite <- contains_spec. discriminate.
  - destruct (generate bare_host (with_image (lit "myorg/llama-cuda:latest")))
      as [[out f]|e] eqn:E; [|vm_compute in E; discriminate].
    assert (Hout : out = [progress_line])
      by (vm_compute in E; injection E as <- _; reflexivity).
    subst out.
    destruct (proj2 (proj2 (proj2 (gen_gpu_deployment_iff_cuda
                (with_image (lit "myorg/llama-cuda:latest")))))
                bare_host [progress_line] f E) as (ports & env & _ & _ & Hl).
    exists ports, env, f. split; [reflexivity|exact Hl].
Defined.

(* ===================================================================== *)
(** * Further properties: the port entry *)
(* ===================================================================== *)

Lemma split_not_nil (sep : char) (m : option nat) (s : str) :
  Py.split sep m s <> [].
Proof.
  destruct s as [|c t]; simpl; [discriminate|].
  destruct (N.eqb c sep); [destruct m as [[|m]|]; discriminate|].
  destruct (Py.split sep m t); discriminate.
Qed.

(** When [split] stopped before its bound, no field holds the separator. *)
Lemma split_fields_below_bound (sep : char) (s : str) (m : nat) :
  length (Py.split sep (Some m) s) <= m ->
  Forall (fun f => ~ In sep f) (Py.split sep (Some m) s).
Proof.
  revert m. induction s as [|c t IH]; intros m H.
  - repeat constructor. auto.
  - simpl in *. destruct (N.eqb_spec c sep) as [->|Hne].
    + destruct m as [|m]; simpl in H; [lia|].
      constructor; [auto|]. apply IH. lia.
    + destruct (Py.split sep (Some m) t) as [|x xs] eqn:E.
      * now apply split_not_nil in E.
      * pose proof (IH m) as IH'. rewrite E in IH'. specialize (IH' H).
        inversion IH'; subst.
        constructor; [|assumption]. intros [E'|E']; [congruence|auto].
Qed.

(** Every field but the last holds no separator. *)
Lemma split_fields_but_last (sep : char) (m : option nat) (s : str) :
  Forall (fun f => ~ In sep f) (removelast (Py.split sep m s)).
Proof.
  revert m. induction s as [|c t IH]; intros m.
  - constructor.
  - simpl. destruct (N.eqb_spec c sep) as [->|Hne].
    + assert (H : forall m', Forall (fun f => ~ In sep f)
                               (removelast ([] :: Py.split sep m' t))).
      { intros m'. specialize (IH m').
        destruct (Py.split sep m' t) as [|x xs] eqn:E;
          [now apply split_not_nil in E|].
        change (removelast ([] :: x :: xs)) with ([] :: removelast (x :: xs)).
        constructor; [auto|assumption]. }
      destruct m as [[|m]|]; [constructor|apply H|apply H].
    + specialize (IH m).
      destruct (Py.split sep m t) as [|x xs] eqn:E;
        [now apply split_not_nil in E|].
      destruct xs as [|y ys]; [constructor|].
      change (removelast ((c :: x) :: y :: ys))
        with ((c :: x) :: removelast (y :: ys)).
      change (removelast (x :: y :: ys)) with (x :: removelast (y :: ys)) in IH.
      inversion IH; subst. constructor; [|assumption].
      intros [E'|E']; [congruence|auto].
Qed.

(** X1: whatever the port argument, [_gen_ports] raises nothing (the
    indices [p[0]] and [p[1]] are never out of range) and returns one port
    entry [host:container] whose two parts hold no colon. *)
Theorem gen_ports_one_entry (c : Compose) :
  exists host_port container_port,
    _gen_ports c = Ok (ports_block host_port container_port)
    /\ ~ In colon host_port /\ ~ In colon container_port.
Proof.
  destruct (truthy_opt (args_port (args c))) eqn:Ht.
  - destruct (args_port (args c)) as [[|ch p]|] eqn:Hp; try discriminate.
    rewrite (gen_ports_split c Hp) by discriminate. cbv zeta.
    pose proof (split_fields_but_last colon (Some 2) (ch :: p)) as Hl.
    pose proof (@split_fields_below_bound colon (ch :: p) 2) as Hb.
    destruct (Py.split colon (Some 2) (ch :: p)) as [|a [|b [|d r]]] eqn:E.
    + now apply split_not_nil in E.
    + specialize (Hb ltac:(simpl; lia)). inversion Hb; subst.
      exists a, a. cbn. auto.
    + specialize (Hb ltac:(simpl; lia)). inversion Hb as [|? ? Ha Hb']; subst.
      inversion Hb'; subst. exists b, a. cbn. auto.
    + change (removelast (a :: b :: d :: r)) with (a :: b :: removelast (d :: r)) in Hl.
      inversion Hl as [|? ? Ha Hl']; subst. inversion Hl'; subst.
      exists b, a. cbn. auto.
  - exists (lit "8080"), (lit "8080"). split; [now apply gen_ports_falsy|].
    split; no_char.
Qed.

(* ===================================================================== *)
(** * Further properties: when generate raises *)
(* ===================================================================== *)

Lemma apply_env_value_error (env : list str) (d : list (str * str)) :
  Exists malformed env -> apply_env d env = Raise ValueError.
Proof.
  intros H. revert d. induction env as [|o env IH]; intros d.
  - inversion H.
  - cbn [apply_env]. fold equals.
    destruct (in_dec N.eq_dec equals o) as [Hin|Hout].
    + destruct (first_occurrence _ _ Hin) as (k & v & -> & Hk).
      rewrite split_at_sep by assumption. rewrite split_zero. cbn.
      apply IH. inversion H; subst; [|assumption].
      exfalso. apply H1. apply in_or_app. right. now left.
    + rewrite split_no_sep by assumption. reflexivity.
Qed.

(** X2: [generate] raises exactly for a malformed override. When some
    string of [args.env] holds no [=], it raises [ValueError] and returns no
    file; when every override holds [=] (or there is none), it prints its
    one progress line and returns a file named [docker-compose.yaml]. *)
Theorem generate_raises_for_malformed_override (deps : Deps) (c : Compose) :
  (forall env, args_env (args c) = Some env -> Exists malformed env ->
               generate deps c = Raise ValueError)
  /\ ((forall env, args_env (args c) = Some env ->
                   Forall (fun e => In equals e) env) ->
      exists f, generate deps c = Ok ([progress_line], f)
                /\ filename f = lit "docker-compose.yaml").
Proof.
  split; [|apply generate_returns].
  intros env E H. unfold generate.
  destruct (gen_ports_total c) as [ports ->]. cbn [bind].
  rewrite gen_environment_render, E.
  assert (Ht : truthy_opt (Some env) = true) by (destruct env; [inversion H|reflexivity]).
  rewrite Ht, (apply_env_value_error (get_accel_env_vars deps) H). reflexivity.
Qed.

Lemma generate_raises_for_malformed_override_witness :
  generate bare_host (with_env [lit "A=1"; lit "NOVALUE"]) = Raise ValueError
  /\ exists f, generate bare_host (with_env [lit "A=1"; lit "B=2=3"])
               = Ok ([progress_line], f)
               /\ filename f = lit "docker-compose.yaml".
Proof.
  split.
  - apply (proj1 (generate_raises_for_malformed_override bare_host
                    (with_env [lit "A=1"; lit "NOVALUE"]))
             [lit "A=1"; lit "NOVALUE"] eq_refl).
    right. left. unfold malformed. no_char.
  - apply (proj2 (generate_raises_for_malformed_override bare_host
                    (with_env [lit "A=1"; lit "B=2=3"]))).
    intros env E. injection E as <-.
    repeat constructor; cbv; tauto.
Defined.

(* ===================================================================== *)
(** * Further properties: the device section *)
(* ===================================================================== *)

(** X3: the device section has no line when none of [/dev/dri],
    [/dev/kfd], [/dev/accel] exists; otherwise its lines are the heading and,
    for each of the three paths that exists, in that order, one entry that
    maps the path to itself. *)
Theorem gen_devices_lines (deps : Deps) :
  kept_lines (_gen_devices deps) =
    match filter (path_exists deps) device_paths with
    | [] => []
    | devs => lit "    devices:" :: map device_line devs
    end.
Proof.
  unfold _gen_devices, device_paths. cbn [filter].
  destruct (path_exists deps (lit "/dev/dri")),
           (path_exists deps (lit "/dev/kfd")),
           (path_exists deps (lit "/dev/accel")); reflexivity.
Qed.

(* ===================================================================== *)
(** * Further properties: the clean-up *)
(* ===================================================================== *)

Lemma kept_lines_not_blank (s : str) :
  kept_lines s = filter (fun line => negb (blank line)) (Py.splitlines s).
Proof. unfold kept_lines. apply filter_ext. intros l. apply truthy_strip. Qed.

Lemma filter_twice (A : Type) (f : A -> bool) (l : list A) :
  filter f (filter f l) = filter f l.
Proof.
  induction l as [|x l IH]; [reflexivity|]. simpl.
  destruct (f x) eqn:E; [|exact IH]. simpl. now rewrite E, IH.
Qed.

(** X4: the lines of the cleaned text are the lines of the text that are
    not blank, in their order: the clean-up removes the empty and the
    white-space lines and nothing else, and joining by newlines loses no
    line. *)
Theorem cleanup_keeps_the_other_lines (s : str) :
  Py.splitlines (cleanup s)
  = filter (fun line => negb (blank line)) (Py.splitlines s).
Proof. rewrite (proj1 (cleanup_lines s)). apply kept_lines_not_blank. Qed.

(** X5: the clean-up changes nothing in a text it has cleaned. *)
Theorem cleanup_idempotent (s : str) : cleanup (cleanup s) = cleanup s.
Proof.
  unfold cleanup at 1. fold (kept_lines (cleanup s)).
  unfold kept_lines at 1. rewrite (proj1 (cleanup_lines s)).
  unfold kept_lines. rewrite filter_twice. reflexivity.
Qed.

(* ===================================================================== *)
(** * Further properties: the frame of the manifest *)
(* ===================================================================== *)

Lemma join_snoc (sep : str) (ls : list str) (x : str) :
  ls <> [] -> Py.join sep (ls ++ [x]) = Py.join sep ls ++ sep ++ x.
Proof.
  induction ls as [|a ls IH]; [congruence|]. intros _.
  destruct ls as [|b ls]; [reflexivity|].
  change (Py.join sep ((a :: b :: ls) ++ [x]))
    with (a ++ sep ++ Py.join sep ((b :: ls) ++ [x])).
  rewrite IH by discriminate.
  change (Py.join sep (a :: b :: ls)) with (a ++ sep ++ Py.join sep (b :: ls)).
  now rewrite <- !app_assoc.
Qed.

Lemma join_cons2 (sep a b : str) (ls : list str) :
  Py.join sep (a :: b :: ls) = a ++ sep ++ Py.join sep (b :: ls).
Proof. reflexivity. Qed.

(** X6: every manifest [generate] returns starts with the banner line and
    the line [#], and ends with the line [restart: unless-stopped], with no
    newline after it. *)
Theorem generate_frame (deps : Deps) (c : Compose) (out : list str) (f : PlainFile) :
  generate deps c = Ok (out, f) ->
  (exists middle,
     Py.splitlines (content f) = [banner; lit "#"] ++ middle ++ [restart_line])
  /\ (exists rest, content f = banner ++ nl ++ lit "#" ++ nl ++ rest)
  /\ (exists text, content f = text ++ nl ++ restart_line).
Proof.
  intros H. pose proof (generate_lines deps c H) as (ports & env & _ & _ & Hl).
  apply generate_inv in H as (ports' & env' & _ & _ & _ & ->).
  cbn [content] in *.
  set (t := template deps c (_gen_volumes deps c) ports' env' (_gen_devices deps)
                     (_gen_gpu_deployment c) (_gen_command c)) in *.
  rewrite (proj1 (cleanup_lines t)) in Hl.
  unfold lines_before_deploy, lines_after_deploy in Hl.
  fold restart_line in Hl.
  match type of Hl with
  | _ = ([banner; lit "#"] ++ ?a) ++ ?b ++ ?d ++ [restart_line] =>
      set (middle := a ++ b ++ d) in *;
      assert (Hk : kept_lines t = [banner; lit "#"] ++ middle ++ [restart_line])
        by (rewrite Hl; subst middle; now rewrite <- !app_assoc)
  end.
  clear Hl. split; [|split].
  - exists middle. now rewrite (proj1 (cleanup_lines t)).
  - unfold cleanup. fold (kept_lines t). rewrite Hk.
    destruct (middle ++ [restart_line]) as [|x xs] eqn:E.
    + destruct middle; discriminate.
    + exists (Py.join nl (x :: xs)). reflexivity.
  - unfold cleanup. fold (kept_lines t). rewrite Hk.
    rewrite app_assoc, join_snoc by discriminate.
    eexists. reflexivity.
Qed.

Lemma generate_frame_witness :
  exists out f,
    generate everything_exists full_sample = Ok (out, f)
    /\ (exists middle,
          Py.splitlines (content f) = [banner; lit "#"] ++ middle ++ [restart_line])
    /\ (exists text, content f = text ++ nl ++ restart_line).
Proof.
  eexists _, _. split.
  - vm_compute. reflexivity.
  - pose proof (@generate_frame everything_exists full_sample [progress_line] _
                  ltac:(vm_compute; reflexivity)) as (H1 & _ & H3).
    split; assumption.
Defined.

(* ===================================================================== *)
(** * Further properties: the keys of the environment section *)
(* ===================================================================== *)

Lemma dict_set_nodup (d : list (str * str)) (k v : str) :
  NoDup (map fst d) -> NoDup (map fst (dict_set d k v)).
Proof.
  intros H. rewrite dict_set_keys.
  destruct (existsb (str_eqb k) (map fst d)) eqn:E; [assumption|].
  apply NoDup_app; [assumption|repeat constructor; auto|].
  intros a Ha [<-|[]]. apply existsb_str_eqb in Ha. congruence.
Qed.

Lemma dict_set_keeps_keys (d : list (str * str)) (k v key : str) :
  In key (map fst d) -> In key (map fst (dict_set d k v)).
Proof.
  intros H. rewrite dict_set_keys.
  destruct (existsb (str_eqb k) (map fst d)); [assumption|].
  apply in_or_app. now left.
Qed.

Lemma apply_env_nodup (env : list str) (d d' : list (str * str)) :
  apply_env d env = Ok d' ->
  NoDup (map fst d) ->
  NoDup (map fst d') /\ (forall key, In key (map fst d) -> In key (map fst d')).
Proof.
  revert d. induction env as [|e env IH]; intros d H Hd.
  - injection H as <-. auto.
  - cbn [apply_env] in H.
    destruct (unpack2 (Py.split 61%N (Some 1) e)) as [[k v]|ex]; [|discriminate].
    cbn [bind fst snd] in H.
    destruct (IH _ H (dict_set_nodup d k v Hd)) as [Hn Hk].
    split; [assumption|]. intros key Hin. apply Hk. now apply dict_set_keeps_keys.
Qed.


(* ===================================================================== *)
(** * Further properties: empty optional arguments *)
(* ===================================================================== *)

(** X9: a corpus source set to the empty string and an override list that
    is empty are taken as absent: [generate] gives what it gives for the
    configuration without them. *)
Theorem generate_empty_is_absent (deps : Deps) (c : Compose) :
  generate deps
    (set_args c (with_rag_env (args c) (absent_if_empty (args_rag (args c)))
                              (absent_if_empty (args_env (args c)))))
  = generate deps c.
Proof.
  unfold generate, _gen_ports, _gen_volumes, _gen_environment, _gen_command,
    _gen_gpu_deployment, _gen_rag_volume, _gen_model_volume,
    _gen_chat_template_volume, _gen_mmproj_volume, template.
  cbn [set_args with_rag_env args args_rag args_env args_port src_model_path
       dest_model_path src_chat_template_path dest_chat_template_path
       src_mmproj_path dest_mmproj_path model_name name exec_args image].
  destruct (args_rag (args c)) as [[|? ?]|], (args_env (args c)) as [[|? ?]|];
    reflexivity.
Qed.

(* ===================================================================== *)
(** * Further properties: the command line in the manifest *)
(* ===================================================================== *)

Lemma one_line_app (a b : str) : one_line (a ++ b) = one_line a && one_line b.
Proof. apply forallb_app. Qed.

Lemma blank_app (a b : str) : blank (a ++ b) = blank a && blank b.
Proof. apply forallb_app. Qed.

Lemma replace_one_line (a : str) :
  one_line a = true -> one_line (Py.replace Shlex.squote quoted_squote a) = true.
Proof.
  induction a as [|c a IH]; [reflexivity|]. intros H.
  change (one_line (c :: a)) with (negb (Py.is_linebreak c) && one_line a) in H.
  apply andb_true_iff in H as [Hc Ha].
  unfold Py.replace. cbn [flat_map]. fold (Py.replace Shlex.squote quoted_squote a).
  rewrite one_line_app, (IH Ha), andb_true_r.
  destruct (N.eqb c Shlex.squote); [reflexivity|].
  unfold one_line. cbn [forallb]. now rewrite Hc.
Qed.

Lemma quote_one_line (a : str) :
  one_line a = true -> one_line (Shlex.quote a) = true.
Proof.
  intros H. unfold Shlex.quote.
  destruct (is_empty a); [reflexivity|].
  destruct (forallb Shlex.is_safe a); [assumption|].
  change ([Shlex.squote] ++ dq ++ [Shlex.squote] ++ dq ++ [Shlex.squote])
    with quoted_squote.
  rewrite !one_line_app, (@replace_one_line a H). reflexivity.
Qed.

Lemma shlex_join_one_line (args : list str) :
  Forall (fun t => one_line t = true) args -> one_line (Shlex.join args) = true.
Proof.
  induction 1 as [|a args Ha _ IH]; [reflexivity|].
  destruct args as [|b r].
  - now apply quote_one_line.
  - rewrite shlex_join_cons, !one_line_app, IH, (@quote_one_line a Ha). reflexivity.
Qed.

(** A text of one line that is not blank is kept as it is. *)
Lemma kept_lines_single (x : str) :
  one_line x = true -> blank x = false -> kept_lines x = [x].
Proof.
  intros Ho Hb. rewrite kept_lines_not_blank.
  rewrite (@splitlines_plain x Ho (@blank_nil_or x Hb)).
  cbn [filter]. now rewrite Hb.
Qed.

Lemma gen_command_line (c : Compose) :
  exec_args c <> [] ->
  Forall (fun t => one_line t = true) (exec_args c) ->
  kept_lines (_gen_command c) = [lit "    command: " ++ Shlex.join (exec_args c)].
Proof.
  intros Hne Hl. unfold _gen_command.
  destruct (exec_args c) as [|a r] eqn:E; [congruence|].
  cbn [truthy is_empty negb]. apply kept_lines_single.
  - rewrite one_line_app, (shlex_join_one_line Hl). reflexivity.
  - reflexivity.
Qed.

(** X8: when no token of [exec_args] holds a line boundary, the command
    survives the clean-up: the last two lines of the manifest are the command
    line, [command: ] followed by [shlex.join(exec_args)], and the restart
    line, and [shlex.split] of the command read from that line gives
    [exec_args] back. *)
Theorem generate_command_line (deps : Deps) (c : Compose)
        (out : list str) (f : PlainFile) :
  generate deps c = Ok (out, f) ->
  exec_args c <> [] ->
  Forall (fun t => one_line t = true) (exec_args c) ->
  exists before cmd,
    Py.splitlines (content f) = before ++ [lit "    command: " ++ cmd; restart_line]
    /\ cmd = Shlex.join (exec_args c)
    /\ Shlex.split cmd = Ok (exec_args c).
Proof.
  intros H Hne Hl.
  apply generate_lines in H as (ports & env & _ & _ & Hlines).
  exists (lines_before_deploy deps c ports env ++ kept_lines (_gen_gpu_deployment c)),
         (Shlex.join (exec_args c)).
  split; [|split; [reflexivity|now apply shlex_split_join]].
  rewrite Hlines. unfold lines_after_deploy.
  rewrite (@gen_command_line c Hne Hl), <- !app_assoc. reflexivity.
Qed.

Lemma generate_command_line_witness :
  exists out f before,
    generate everything_exists full_sample = Ok (out, f)
    /\ Py.splitlines (content f)
       = before ++ [lit "    command: " ++ Shlex.join (exec_args full_sample);
                    restart_line]
    /\ Shlex.split (Shlex.join (exec_args full_sample)) = Ok (exec_args full_sample).
Proof.
  destruct (generate everything_exists full_sample) as [[out f]|e] eqn:E;
    [|vm_compute in E; discriminate].
  destruct (@generate_command_line everything_exists full_sample out f E)
    as (before & cmd & Hl & -> & Hs).
  - discriminate.
  - repeat constructor.
  - exists out, f, before. repeat split; assumption.
Defined.

(** X11: the command section determines the command: two configurations
    with the same command section have the same [exec_args]. *)
Theorem gen_command_injective (c1 c2 : Compose) :
  _gen_command c1 = _gen_command c2 -> exec_args c1 = exec_args c2.
Proof.
  unfold _gen_command.
  destruct (exec_args c1) as [|a1 r1] eqn:E1, (exec_args c2) as [|a2 r2] eqn:E2;
    cbn [truthy is_empty negb]; intros H; try reflexivity; try discriminate.
  apply app_inv_head in H.
  pose proof (@shlex_split_join (a1 :: r1) ltac:(discriminate)) as H1.
  pose proof (@shlex_split_join (a2 :: r2) ltac:(discriminate)) as H2.
  rewrite H, H2 in H1. congruence.
Qed.

Lemma gen_command_injective_witness :
  exec_args (with_command [lit "a b"]) = exec_args (with_command [lit "a b"]).
Proof.
  apply (gen_command_injective (with_command [lit "a b"]) (with_command [lit "a b"])).
  reflexivity.
Defined.

(* ===================================================================== *)
(** * Further properties: the head of the manifest *)
(* ===================================================================== *)

Lemma gen_volumes_heading (deps : Deps) (c : Compose) :
  exists rest, kept_lines (_gen_volumes deps c) = lit "    volumes:" :: rest.
Proof.
  rewrite gen_volumes_shape. unfold bind_mount at 1.
  rewrite <- !app_assoc. rewrite (kept_lines_app (lit "    volumes:")).
  eexists. reflexivity.
Qed.

(** X10: when the version, the model name, the service name and the image
    hold no line boundary, the manifest starts with the banner, the version
    line, [services:], the service key (the model name followed by a colon),
    the [container_name] and [image] lines and the [volumes:] heading, in
    this order. *)
Theorem generate_head (deps : Deps) (c : Compose) (out : list str) (f : PlainFile) :
  generate deps c = Ok (out, f) ->
  one_line (version deps) = true -> one_line (model_name c) = true ->
  one_line (name c) = true -> one_line (image c) = true ->
  exists rest,
    Py.splitlines (content f) =
      [banner;
       lit "#";
       lit "# Created with ramalama-" ++ version deps;
       lit "services:";
       lit "  " ++ model_name c ++ lit ":";
       lit "    container_name: " ++ name c;
       lit "    image: " ++ image c;
       lit "    volumes:"] ++ rest.
Proof.
  intros H Hv Hm Hn Hi.
  apply generate_lines in H as (ports & env & _ & _ & Hl).
  destruct (gen_volumes_heading deps c) as [vols Hvols].
  rewrite Hl. unfold lines_before_deploy. rewrite Hvols.
  rewrite (@kept_lines_single (lit "# Created with ramalama-" ++ version deps));
    [|rewrite one_line_app, Hv; reflexivity|reflexivity].
  rewrite (@kept_lines_single (lit "  " ++ model_name c ++ lit ":"));
    [|rewrite !one_line_app, Hm; reflexivity
     |rewrite !blank_app, andb_false_r; reflexivity].
  rewrite (@kept_lines_single (lit "    container_name: " ++ name c));
    [|rewrite one_line_app, Hn; reflexivity|reflexivity].
  rewrite (@kept_lines_single (lit "    image: " ++ image c));
    [|rewrite one_line_app, Hi; reflexivity|reflexivity].
  eexists. cbn [app]. reflexivity.
Qed.

Lemma generate_head_witness :
  exists out f rest,
    generate everything_exists full_sample = Ok (out, f)
    /\ Py.splitlines (content f) =
         [banner;
          lit "#";
          lit "# Created with ramalama-0.12.0";
          lit "services:";
          lit "  tiny:";
          lit "    container_name: svc";
          lit "    image: quay.io/ramalama/cuda:latest";
          lit "    volumes:"] ++ rest.
Proof.
  destruct (generate everything_exists full_sample) as [[out f]|e] eqn:E;
    [|vm_compute in E; discriminate].
  destruct (@generate_head everything_exists full_sample out f E
              eq_refl eq_refl eq_refl eq_refl) as [rest Hl].
  exists out, f, rest. split; [reflexivity|exact Hl].
Defined.

(* ===================================================================== *)
(** * Further properties: when the environment section is omitted *)
(* ===================================================================== *)

Lemma dict_set_not_nil (d : list (str * str)) (k v : str) : dict_set d k v <> [].
Proof.
  destruct d as [|[k0 v0] d]; simpl; [discriminate|].
  destruct (str_eqb k0 k); discriminate.
Qed.

Lemma apply_env_not_nil (env : list str) (d d' : list (str * str)) :
  apply_env d env = Ok d' -> d <> [] \/ env <> [] -> d' <> [].
Proof.
  revert d. induction env as [|e env IH]; intros d H Hne.
  - injection H as <-. destruct Hne; congruence.
  - cbn [apply_env] in H.
    destruct (unpack2 (Py.split 61%N (Some 1) e)) as [[k v]|ex]; [|discriminate].
    cbn [bind fst snd] in H. apply (IH _ H). left. apply dict_set_not_nil.
Qed.

Lemma env_block_nil (d : list (str * str)) : env_block d = [] -> d = [].
Proof. destruct d; [reflexivity|discriminate]. Qed.

(** X12: the environment section is omitted (the empty string) exactly
    when there is no accelerator variable and no override; with either, a
    section that [generate] gets is never empty. *)
Theorem gen_environment_omitted_iff (deps : Deps) (c : Compose) :
  _gen_environment deps c = Ok []
  <-> get_accel_env_vars deps = [] /\ truthy_opt (args_env (args c)) = false.
Proof.
  rewrite gen_environment_render. split.
  - intros H. destruct (truthy_opt (args_env (args c))) eqn:Ht.
    + exfalso.
      destruct (args_env (args c)) as [[|e env]|]; try discriminate.
      destruct (apply_env (get_accel_env_vars deps) (e :: env)) as [d'|ex] eqn:E;
        [|discriminate].
      cbn [bind] in H. injection H as H. apply env_block_nil in H. subst d'.
      apply (apply_env_not_nil E); [right; discriminate|reflexivity].
    + cbn [bind] in H. injection H as H. apply env_block_nil in H. auto.
  - intros [-> ->]. reflexivity.
Qed.

(* ===================================================================== *)
(** * Further properties: the service name *)
(* ===================================================================== *)

(** X13: the container name is the custom name when one is given and is
    not empty, and [ramalama-] followed by the model name otherwise, also
    for a custom name set to the empty string; it is never empty. *)
Theorem init_name (mn src dest : str) (ct mm : option (str * str))
        (a : Args) (ea : list str) :
  name (__init__ mn (src, dest) ct mm a ea)
  = match args_name a with
    | Some (ch :: n) => ch :: n
    | _ => lit "ramalama-" ++ mn
    end
  /\ name (__init__ mn (src, dest) ct mm a ea) <> [].
Proof.
  assert (H : name (__init__ mn (src, dest) ct mm a ea)
              = match args_name a with
                | Some (ch :: n) => ch :: n
                | _ => lit "ramalama-" ++ mn
                end).
  { unfold __init__. destruct ct as [[? ?]|], mm as [[? ?]|];
      cbn [name]; destruct (args_name a) as [[|? ?]|]; reflexivity. }
  split; [exact H|]. rewrite H.
  destruct (args_name a) as [[|? ?]|]; discriminate.
Qed.

(* ===================================================================== *)
(** * The empty port and the errors of generate *)
(* ===================================================================== *)

Lemma generate_value_error (deps : Deps) (c : Compose) (env : list str) :
  args_env (args c) = Some env -> Exists malformed env ->
  generate deps c = Raise ValueError.
Proof.
  intros E H. unfold generate.
  destruct (gen_ports_total c) as [ports ->]. cbn [bind].
  rewrite gen_environment_render, E.
  assert (Ht : truthy_opt (Some env) = true) by (destruct env; [inversion H|reflexivity]).
  rewrite Ht, (apply_env_value_error (get_accel_env_vars deps) H). reflexivity.
Qed.

Lemma overrides_dec (env : list str) :
  {Forall (fun e => In equals e) env} + {Exists malformed env}.
Proof.
  apply Forall_Exists_dec. intros e. apply in_dec. apply N.eq_dec.
Qed.

(** The errors of [generate]: it raises nothing but the [ValueError] of an
    override without [=]. *)
Lemma generate_raise_inv (deps : Deps) (c : Compose) (e : exn) :
  generate deps c = Raise e ->
  e = ValueError
  /\ exists env, args_env (args c) = Some env /\ Exists malformed env.
Proof.
  intros H. destruct (args_env (args c)) as [env|] eqn:E.
  - destruct (overrides_dec env) as [Hall|Hex].
    + exfalso. destruct (generate_returns deps c) as (f & Hf & _).
      * intros env' E'. rewrite E in E'. now injection E' as <-.
      * congruence.
    + rewrite (generate_value_error deps c E Hex) in H. injection H as <-.
      split; [reflexivity|]. now exists env.
  - exfalso. destruct (generate_returns deps c) as (f & Hf & _).
    + intros env' E'. congruence.
    + congruence.
Qed.

(** C2, as the code has it: a port set to the empty string raises no
    error. It is taken as no port: [_gen_ports] returns the default mapping
    8080:8080 and [generate] gives what it gives for the same configuration
    without a port. So [generate] returns the manifest, with the two lines
    of the default port section, whenever every override of [args.env] holds
    [=]; the one error it can raise is the [ValueError] of an override
    without [=], which does not depend on the port. *)
Theorem generate_empty_port_is_default (deps : Deps) (c : Compose) :
  args_port (args c) = Some [] ->
  _gen_ports c = Ok (ports_block (lit "8080") (lit "8080"))
  /\ generate deps c = generate deps (set_args c (with_port (args c) None))
  /\ ((forall env, args_env (args c) = Some env ->
                   Forall (fun e => In equals e) env) ->
      exists f before after,
        generate deps c = Ok ([progress_line], f)
        /\ filename f = lit "docker-compose.yaml"
        /\ Py.splitlines (content f) = before ++ default_port_lines ++ after)
  /\ (forall e, generate deps c = Raise e ->
        e = ValueError
        /\ exists env, args_env (args c) = Some env /\ Exists malformed env).
Proof.
  intros Hp.
  assert (Hports : _gen_ports c = Ok (ports_block (lit "8080") (lit "8080")))
    by (apply gen_ports_falsy; now rewrite Hp).
  split; [exact Hports|]. split; [|split].
  - unfold generate, _gen_ports, _gen_volumes, _gen_environment, _gen_command,
      _gen_gpu_deployment, _gen_rag_volume, _gen_model_volume,
      _gen_chat_template_volume, _gen_mmproj_volume, template.
    simpl. rewrite Hp. reflexivity.
  - intros Hall. destruct (generate_returns deps c Hall) as (f & Hf & Hn).
    destruct (generate_lines deps c Hf) as (ports & env & Hp' & _ & Hl).
    rewrite Hports in Hp'. injection Hp' as <-.
    unfold lines_before_deploy in Hl.
    change (kept_lines (ports_block (lit "8080") (lit "8080")))
      with default_port_lines in Hl.
    exists f,
      ([banner; lit "#"]
       ++ kept_lines (lit "# Created with ramalama-" ++ version deps)
       ++ [lit "services:"]
       ++ kept_lines (lit "  " ++ model_name c ++ lit ":")
       ++ kept_lines (lit "    container_name: " ++ name c)
       ++ kept_lines (lit "    image: " ++ image c)
       ++ kept_lines (_gen_volumes deps c)),
      (kept_lines env ++ kept_lines (_gen_devices deps)
       ++ kept_lines (_gen_gpu_deployment c) ++ lines_after_deploy c).
    split; [exact Hf|]. split; [exact Hn|].
    rewrite Hl. repeat rewrite <- app_assoc. reflexivity.
  - apply generate_raise_inv.
Qed.

Lemma generate_empty_port_is_default_witness :
  _gen_ports (empty_port_with_env [lit "A=1"]) = Ok (ports_block (lit "8080") (lit "8080"))
  /\ (exists f before after,
        generate bare_host (empty_port_with_env [lit "A=1"]) = Ok ([progress_line], f)
        /\ filename f = lit "docker-compose.yaml"
        /\ Py.splitlines (content f) = before ++ default_port_lines ++ after)
  /\ generate bare_host (empty_port_with_env [lit "NOVALUE"]) = Raise ValueError.
Proof.
  split; [|split].
  - apply (proj1 (@generate_empty_port_is_default bare_host
                    (empty_port_with_env [lit "A=1"]) eq_refl)).
  - apply (proj1 (proj2 (proj2 (@generate_empty_port_is_default bare_host
                    (empty_port_with_env [lit "A=1"]) eq_refl)))).
    intros env E. injection E as <-. repeat constructor; cbv; tauto.
  - destruct (generate bare_host (empty_port_with_env [lit "NOVALUE"]))
      as [r|e] eqn:E; [vm_compute in E; discriminate|].
    destruct (proj2 (proj2 (proj2 (@generate_empty_port_is_default bare_host
                (empty_port_with_env [lit "NOVALUE"]) eq_refl))) e E) as [-> _].
    reflexivity.
Defined.

(* ===================================================================== *)
(** * The command in the manifest *)
(* ===================================================================== *)





(* ===================================================================== *)
(** * The names in the environment section *)
(* ===================================================================== *)

Lemma gen_environment_merged (deps : Deps) (c : Compose) :
  _gen_environment deps c =
    (env_vars <- merged_env deps c ;; Ok (env_block env_vars)).
Proof. apply gen_environment_render. Qed.

Lemma env_line_kept (kv : str * str) :
  one_line (fst kv) = true -> one_line (snd kv) = true ->
  one_line (env_line kv) = true /\ blank (env_line kv) = false.
Proof.
  intros Hk Hv. unfold env_line. split.
  - rewrite !one_line_app, Hk, Hv. reflexivity.
  - reflexivity.
Qed.

Lemma env_entries_lines (d : list (str * str)) (a : str) :
  one_line a = true -> blank a = false ->
  Forall (fun kv => one_line (fst kv) = true /\ one_line (snd kv) = true) d ->
  kept_lines (a ++ env_entries d) = a :: map env_line d.
Proof.
  intros Ha Hb H. revert a Ha Hb. induction H as [|kv d [Hk Hv] _ IH]; intros a Ha Hb.
  - unfold env_entries. cbn [map concat]. rewrite app_nil_r.
    now apply kept_lines_single.
  - unfold env_entries. cbn [map concat]. fold (env_entries d).
    rewrite <- !app_assoc. rewrite kept_lines_app.
    rewrite (@kept_lines_single a Ha Hb).
    destruct (@env_line_kept kv Hk Hv) as [Ho Hnb].
    pose proof (IH (env_line kv) Ho Hnb) as IH'. unfold env_line in IH' at 1.
    rewrite <- !app_assoc in IH'. cbn [app]. f_equal. exact IH'.
Qed.

(** X7: let [env_vars] be the dict of [_gen_environment], the accelerator
    variables with the overrides applied. The section is written from it,
    and when the accelerator variables have distinct names so has
    [env_vars]: an override never adds a second item for a name, and no
    accelerator variable is lost. When moreover no name and no value holds a
    line boundary, the lines of the section are the heading and one line
    [- NAME=VALUE] per item, so every name is listed once. *)
Theorem gen_environment_names_once (deps : Deps) (c : Compose)
        (env_vars : list (str * str)) :
  merged_env deps c = Ok env_vars ->
  NoDup (map fst (get_accel_env_vars deps)) ->
  _gen_environment deps c = Ok (env_block env_vars)
  /\ NoDup (map fst env_vars)
  /\ (forall key, In key (map fst (get_accel_env_vars deps)) ->
                  In key (map fst env_vars))
  /\ (env_vars <> [] ->
      Forall (fun kv => one_line (fst kv) = true /\ one_line (snd kv) = true) env_vars ->
      kept_lines (env_block env_vars)
      = lit "    environment:" :: map env_line env_vars).
Proof.
  intros H Hd. split; [|split; [|split]].
  - rewrite gen_environment_merged, H. reflexivity.
  - unfold merged_env in H. destruct (truthy_opt (args_env (args c))).
    + exact (proj1 (apply_env_nodup _ _ H Hd)).
    + injection H as <-. assumption.
  - unfold merged_env in H. destruct (truthy_opt (args_env (args c))).
    + exact (proj2 (apply_env_nodup _ _ H Hd)).
    + injection H as <-. auto.
  - intros Hne Hone. unfold env_block.
    destruct env_vars as [|kv d]; [congruence|]. cbn [is_empty].
    apply env_entries_lines; [reflexivity|reflexivity|assumption].
Qed.

Lemma gen_environment_names_once_witness :
  merged_env two_accel_vars
    (with_env [lit "NEW=a"; lit "CUDA_VISIBLE_DEVICES=7"; lit "NEW=c"])
  = Ok [(lit "HIP_VISIBLE_DEVICES", lit "0"); (lit "CUDA_VISIBLE_DEVICES", lit "7");
        (lit "NEW", lit "c")]
  /\ kept_lines
       (env_block [(lit "HIP_VISIBLE_DEVICES", lit "0");
                   (lit "CUDA_VISIBLE_DEVICES", lit "7"); (lit "NEW", lit "c")])
     = [lit "    environment:";
        lit "      - HIP_VISIBLE_DEVICES=0";
        lit "      - CUDA_VISIBLE_DEVICES=7";
        lit "      - NEW=c"].
Proof.
  split; [vm_compute; reflexivity|].
  eapply eq_trans.
  - apply (proj2 (proj2 (proj2 (@gen_environment_names_once two_accel_vars
             (with_env [lit "NEW=a"; lit "CUDA_VISIBLE_DEVICES=7"; lit "NEW=c"])
             [(lit "HIP_VISIBLE_DEVICES", lit "0"); (lit "CUDA_VISIBLE_DEVICES", lit "7");
              (lit "NEW", lit "c")]
             ltac:(vm_compute; reflexivity)
             ltac:(repeat constructor; cbv; intuition discriminate))))).
    + discriminate.
    + repeat constructor.
  - reflexivity.
Defined.
